(** * Smooth typing animation: the per-frame cursor loop

    A shallow embedding of the plugin class [SmoothTypingAnimation]
    (src/main.ts) and of the defaults of its settings, followed by the
    properties of the blink engine, the smooth-move engine, the frame loop
    and the settings loader.

    Numbers.  Every JavaScript [number] that carries a time, a pixel
    coordinate or a fraction is an exact rational [Q]; caret lines and
    columns are integers [Z].  Rounding, infinities and NaN-valued state are
    outside the model; the one NaN the code can produce from rational
    operands, the remainder by zero, is kept as [None]. *)

From Stdlib Require Import QArith Qminmax Qround Lqa ZArith Lia String List Bool.
Import ListNotations.
Local Open Scope Q_scope.

(** ** The JavaScript builtins the plugin calls *)

Module JS.

(** [a < b] on numbers. *)
Definition lt (a b : Q) : bool := negb (Qle_bool b a).

(** [a <= b] on numbers. *)
Definition le (a b : Q) : bool := Qle_bool a b.

(** [a === b] and [a !== b] on numbers. *)
Definition strict_eq (a b : Q) : bool := Qeq_bool a b.
Definition strict_ne (a b : Q) : bool := negb (Qeq_bool a b).

(** Rounding towards zero, as the remainder operator does. *)
Definition trunc (q : Q) : Z := Z.quot (Qnum q) (Zpos (Qden q)).

(** [a % b]: the remainder has the sign of the dividend; the remainder by
    zero is NaN, here [None]. *)
Definition rem (a b : Q) : option Q :=
  if Qeq_bool b 0 then None
  else Some (a - b * inject_Z (trunc (a / b))).

(** [x < b] where [x] may be NaN: every comparison with NaN is false. *)
Definition lt_nan (x : option Q) (b : Q) : bool :=
  match x with
  | Some a => lt a b
  | None => false
  end.

(** [s.includes(sub)]. *)
Definition includes (s sub : string) : bool :=
  match String.index 0 sub s with
  | Some _ => true
  | None => false
  end.

End JS.

(** ** Data *)

(** [type Coordinates = { left: number; top: number }], in pixels. *)
Record Coordinates : Type := mkCoordinates { left : Q; top : Q }.

(** [type Position = { line: number; ch: number }]. *)
Record Position : Type := mkPosition { line : Z; ch : Z }.

(** The part of a [DOMRect] the loop reads. *)
Record DOMRect : Type := mkDOMRect { rect_left : Q; rect_top : Q; rect_height : Q }.

Definition rectCoords (r : DOMRect) : Coordinates :=
  {| left := rect_left r; top := rect_top r |}.

(** [interface SmoothTypingSettings]; [cursorColor: string | null]. *)
Record SmoothTypingSettings : Type := mkSettings {
  blinkSpeed : Q;
  blinkDelay : Q;
  characterMovementTime : Q;
  cursorWidth : Q;
  cursorColor : option string
}.

(** [style.display] of the overlay element. *)
Inductive Display : Type := DisplayUnset | DisplayNone | DisplayBlock.

(** The overlay element: its [display] and the CSS custom properties the
    plugin writes.  The lengths are kept as numbers, without the [px]
    suffix the code appends. *)
Record CursorElement : Type := mkCursorElement {
  display : Display;
  cursor_color : option string;
  cursor_x1 : option Q;
  cursor_y1 : option Q;
  cursor_height : option Q;
  cursor_width : option Q;
  cursor_opacity : option Q
}.

(** What a call to [requestAnimationFrame] leaves pending: the arrow
    function that resets [blinkStartTime], or the bound [updateCursor]. *)
Inductive FrameCallback : Type := ResetBlink | UpdateCursor.

(** The fields of the plugin object, with the queue of animation-frame
    callbacks it has registered and that have not run yet. *)
Record Plugin : Type := mkPlugin {
  settings : SmoothTypingSettings;
  cursorElement : CursorElement;
  prevCursorCoords : Coordinates;
  prevCursorPos : option Position;
  prevIconCoords : option Coordinates;
  prevFrameTime : Q;
  blinkStartTime : Q;
  remainingMoveTime : Q;
  pending : list FrameCallback
}.

(** Field assignments. *)

Definition set_cursorElement (e : CursorElement) (p : Plugin) : Plugin :=
  mkPlugin (settings p) e (prevCursorCoords p) (prevCursorPos p)
           (prevIconCoords p) (prevFrameTime p) (blinkStartTime p)
           (remainingMoveTime p) (pending p).

Definition set_prevCursorCoords (c : Coordinates) (p : Plugin) : Plugin :=
  mkPlugin (settings p) (cursorElement p) c (prevCursorPos p)
           (prevIconCoords p) (prevFrameTime p) (blinkStartTime p)
           (remainingMoveTime p) (pending p).

Definition set_prevCursorPos (c : option Position) (p : Plugin) : Plugin :=
  mkPlugin (settings p) (cursorElement p) (prevCursorCoords p) c
           (prevIconCoords p) (prevFrameTime p) (blinkStartTime p)
           (remainingMoveTime p) (pending p).

Definition set_prevIconCoords (c : option Coordinates) (p : Plugin) : Plugin :=
  mkPlugin (settings p) (cursorElement p) (prevCursorCoords p) (prevCursorPos p)
           c (prevFrameTime p) (blinkStartTime p)
           (remainingMoveTime p) (pending p).

Definition set_prevFrameTime (t : Q) (p : Plugin) : Plugin :=
  mkPlugin (settings p) (cursorElement p) (prevCursorCoords p) (prevCursorPos p)
           (prevIconCoords p) t (blinkStartTime p)
           (remainingMoveTime p) (pending p).

Definition set_blinkStartTime (t : Q) (p : Plugin) : Plugin :=
  mkPlugin (settings p) (cursorElement p) (prevCursorCoords p) (prevCursorPos p)
           (prevIconCoords p) (prevFrameTime p) t
           (remainingMoveTime p) (pending p).

Definition set_remainingMoveTime (t : Q) (p : Plugin) : Plugin :=
  mkPlugin (settings p) (cursorElement p) (prevCursorCoords p) (prevCursorPos p)
           (prevIconCoords p) (prevFrameTime p) (blinkStartTime p)
           t (pending p).

(** [requestAnimationFrame(cb)]: the callback joins the queue. *)
Definition requestAnimationFrame (cb : FrameCallback) (p : Plugin) : Plugin :=
  mkPlugin (settings p) (cursorElement p) (prevCursorCoords p) (prevCursorPos p)
           (prevIconCoords p) (prevFrameTime p) (blinkStartTime p)
           (remainingMoveTime p) (pending p ++ [cb]).

(** ** Blink engine *)

(** [resetCursor]: registers the reset of [blinkStartTime] for the next
    animation frame and returns opacity 1. *)
Definition resetCursor (p : Plugin) : Q * Plugin :=
  (1, requestAnimationFrame ResetBlink p).

(** [blinkCursor(cursorPosChanged)]; [now] is what [Date.now()] returns
    inside the call. *)
Definition blinkCursor (now : Q) (cursorPosChanged : bool) (p : Plugin) : Q * Plugin :=
  if cursorPosChanged then resetCursor p
  else
    let timePassed := now - blinkStartTime p - blinkDelay (settings p) * 1000 in
    let blinkMs := blinkSpeed (settings p) * 1000 in
    if JS.lt timePassed 0 then (1, p)
    else if JS.lt_nan (JS.rem timePassed blinkMs) (blinkMs / 2) then (1, p)
    else (0, p).

(** ** Smooth-move engine *)

(** The local [returnStatement(fractionTravelled = 0)] of
    [handleSmoothTyping]; a call without argument passes 0. *)
Definition returnStatement (currCursorPos : option Position)
    (fractionTravelled : Q) (p : Plugin) : Q * Plugin :=
  let p1 := if JS.strict_eq fractionTravelled 0
            then set_remainingMoveTime 0 p else p in
  (fractionTravelled, set_prevCursorPos currCursorPos p1).

(** The classification of the transition: lines 60 to 75 of the method,
    for a present current and previous caret position. *)
Definition classify (prev curr : Position) (currCursorCoords : Coordinates)
    (p : Plugin) : Plugin :=
  let charIncremented := (Z.abs (ch prev - ch curr) =? 1)%Z in
  let charMoved := negb (Z.abs (ch prev - ch curr) =? 0)%Z in
  let lineMoved := negb (Z.abs (line prev - line curr) =? 0)%Z in
  if (charMoved && negb charIncremented) || lineMoved then
    set_remainingMoveTime 0 p
  else if charIncremented && negb lineMoved then
    if JS.strict_ne (top currCursorCoords) (top (prevCursorCoords p))
    then set_remainingMoveTime 0 p
    else set_remainingMoveTime (characterMovementTime (settings p)) p
  else p.

(** The output stage: lines 79 to 84. *)
Definition travel (currCursorPos : option Position) (timeSinceLastFrame : Q)
    (p : Plugin) : Q * Plugin :=
  if JS.le (remainingMoveTime p) 0 then returnStatement currCursorPos 0 p
  else
    let fractionTravelled := Qmin (timeSinceLastFrame / remainingMoveTime p) 1 in
    let p1 := set_remainingMoveTime
                (Qmax 0 (remainingMoveTime p - timeSinceLastFrame)) p in
    returnStatement currCursorPos fractionTravelled p1.

(** [handleSmoothTyping(currCursorPos, currCursorCoords, timeSinceLastFrame)]. *)
Definition handleSmoothTyping (currCursorPos : option Position)
    (currCursorCoords : Coordinates) (timeSinceLastFrame : Q)
    (p : Plugin) : Q * Plugin :=
  match currCursorPos, prevCursorPos p with
  | Some curr, Some prev =>
      travel currCursorPos timeSinceLastFrame
             (classify prev curr currCursorCoords p)
  | _, _ => returnStatement currCursorPos 0 p
  end.

(** ** The host: what one run of the frame callback observes *)

(** A DOM node holding the caret; [rangeRect s e] is the bounding client
    rectangle of the range from offset [s] to offset [e] inside it. *)
Record Node : Type := mkNode { rangeRect : Z -> Z -> DOMRect }.

(** [activeWindow.getSelection()]. *)
Record Selection : Type := mkSelection {
  focusNode : option Node;
  focusOffset : Z
}.

(** The editor of the active markdown view: the class name of its container
    element, when it has one, and the caret position [getCursor()] returns. *)
Record Editor : Type := mkEditor {
  containerEl : option string;
  getCursor : Position
}.

(** The ambient state read during one callback.  [Date.now()] is read in
    three places, kept apart here: by [getTimeSinceLastFrame], by
    [blinkCursor] and by the blink reset callback. *)
Record Host : Type := mkHost {
  getSelection : option Selection;
  activeEditor : option Editor;
  bodyClassList : list string;
  nowFrame : Q;
  nowBlink : Q;
  nowReset : Q
}.

(** [classList.contains(cls)]. *)
Definition classList_contains (l : list string) (cls : string) : bool :=
  existsb (String.eqb cls) l.

(** ** Overlay colour *)

Definition set_cursor_color (c : string) (e : CursorElement) : CursorElement :=
  mkCursorElement (display e) (Some c) (cursor_x1 e) (cursor_y1 e)
                  (cursor_height e) (cursor_width e) (cursor_opacity e).

Definition set_display (d : Display) (e : CursorElement) : CursorElement :=
  mkCursorElement d (cursor_color e) (cursor_x1 e) (cursor_y1 e)
                  (cursor_height e) (cursor_width e) (cursor_opacity e).

(** [changeCursorColour(colour: string | null = null)]; a call without
    argument passes [None]. *)
Definition changeCursorColour (h : Host) (colour : option string) (p : Plugin) : Plugin :=
  let colour1 :=
    match colour with
    | None =>
        let isLightTheme :=
          if classList_contains (bodyClassList h) "theme-dark" then false else true in
        if isLightTheme then "#000000"%string else "#ffffff"%string
    | Some c => c
    end in
  set_cursorElement (set_cursor_color colour1 (cursorElement p)) p.

(** ** Frame loop *)

(** [getTimeSinceLastFrame()]. *)
Definition getTimeSinceLastFrame (h : Host) (p : Plugin) : Q * Plugin :=
  let currentTime := nowFrame h in
  let timeSinceLastFrame := currentTime - prevFrameTime p in
  (timeSinceLastFrame, set_prevFrameTime currentTime p).

Definition removeIcon (p : Plugin) : Plugin :=
  set_cursorElement (set_display DisplayNone (cursorElement p)) p.

Definition bringIconBack (p : Plugin) : Plugin :=
  set_cursorElement (set_display DisplayBlock (cursorElement p)) p.

(** The local [scheduleNextUpdate] of [updateCursor]. *)
Definition scheduleNextUpdate (p : Plugin) : Plugin :=
  requestAnimationFrame UpdateCursor p.

(** The range the loop measures: from the focus offset to itself, or to
    offset 1 when the focus offset is 0. *)
Definition cursorRangeRect (node : Node) (offset : Z) : DOMRect :=
  if (offset =? 0)%Z then rangeRect node offset 1
  else rangeRect node offset offset.

(** Lines 141 to 154: the icon moves by the fraction of the distance that
    separates it from the caret, or sits on the caret. *)
Definition iconCoords (iconMovementFraction : Q) (prevIcon : option Coordinates)
    (currCursorCoords : Coordinates) : Coordinates :=
  match JS.strict_ne iconMovementFraction 0, prevIcon with
  | true, Some prev =>
      let movementLeft := iconMovementFraction * (left currCursorCoords - left prev) in
      let movementTop := iconMovementFraction * (top currCursorCoords - top prev) in
      {| left := left prev + movementLeft; top := top prev + movementTop |}
  | _, _ => currCursorCoords
  end.

(** Lines 157 to 163: the five custom properties written each frame.  The
    guard [if (currIconCoords)] of line 157 tests an object that both
    branches above have assigned, so it always passes. *)
Definition render (icon : Coordinates) (height width opacity : Q)
    (e : CursorElement) : CursorElement :=
  mkCursorElement (display e) (cursor_color e) (Some (left icon)) (Some (top icon))
                  (Some height) (Some width) (Some opacity).

(** The editor counts as focused when it exists, has a container element
    and the container's class name includes [cm-focused]. *)
Definition focusedEditor (h : Host) : option Editor :=
  match activeEditor h with
  | Some ed =>
      match containerEl ed with
      | Some className =>
          if JS.includes className "cm-focused" then Some ed else None
      | None => None
      end
  | None => None
  end.

(** [updateCursor()], one run of the frame callback. *)
Definition updateCursor (h : Host) (p : Plugin) : Plugin :=
  let (timeSinceLastFrame, p1) := getTimeSinceLastFrame h p in
  match getSelection h with
  | None => scheduleNextUpdate p1
  | Some selection =>
      match focusNode selection with
      | None => scheduleNextUpdate p1
      | Some node =>
          match focusedEditor h with
          | None => scheduleNextUpdate (removeIcon p1)
          | Some editor =>
              let p2 := bringIconBack p1 in
              let currCursorPos := getCursor editor in
              let rect := cursorRangeRect node (focusOffset selection) in
              let currCursorCoords := rectCoords rect in
              let cursorCoordinatesChanged :=
                JS.strict_ne (left (prevCursorCoords p2)) (left currCursorCoords)
                || JS.strict_ne (top (prevCursorCoords p2)) (top currCursorCoords) in
              let (blinkOpacity, p3) := blinkCursor (nowBlink h) cursorCoordinatesChanged p2 in
              let (iconMovementFraction, p4) :=
                handleSmoothTyping (Some currCursorPos) currCursorCoords
                                   timeSinceLastFrame p3 in
              let currIconCoords :=
                iconCoords iconMovementFraction (prevIconCoords p4) currCursorCoords in
              let p5 :=
                set_cursorElement
                  (render currIconCoords (rect_height rect)
                          (cursorWidth (settings p4)) blinkOpacity (cursorElement p4)) p4 in
              let p6 := set_prevCursorCoords currCursorCoords p5 in
              let p7 := set_prevIconCoords (Some currIconCoords) p6 in
              scheduleNextUpdate p7
          end
      end
  end.

(** What a run of [updateCursor] samples before it draws: the caret
    position and the measured rectangle, when a selection with a focus node
    exists and the editor is focused. *)
Definition caretSample (h : Host) : option (Position * DOMRect) :=
  match getSelection h with
  | Some selection =>
      match focusNode selection, focusedEditor h with
      | Some node, Some editor =>
          Some (getCursor editor, cursorRangeRect node (focusOffset selection))
      | _, _ => None
      end
  | None => None
  end.

(** The rectangle of the caret whenever the selection has a focus node,
    focused editor or not. *)
Definition caretRect (h : Host) : option DOMRect :=
  match getSelection h with
  | Some selection =>
      match focusNode selection with
      | Some node => Some (cursorRangeRect node (focusOffset selection))
      | None => None
      end
  | None => None
  end.

(** The test of line 131. *)
Definition coordinatesChanged (p : Plugin) (c : Coordinates) : bool :=
  JS.strict_ne (left (prevCursorCoords p)) (left c)
  || JS.strict_ne (top (prevCursorCoords p)) (top c).

(** ** Animation frames *)

Definition runCallback (h : Host) (cb : FrameCallback) (p : Plugin) : Plugin :=
  match cb with
  | ResetBlink => set_blinkStartTime (nowReset h) p
  | UpdateCursor => updateCursor h p
  end.

Definition take_pending (p : Plugin) : Plugin :=
  mkPlugin (settings p) (cursorElement p) (prevCursorCoords p) (prevCursorPos p)
           (prevIconCoords p) (prevFrameTime p) (blinkStartTime p)
           (remainingMoveTime p) [].

(** One animation frame: the callbacks registered before the frame run in
    the order of their registration; those they register wait for the next
    frame. *)
Definition animationFrame (h : Host) (p : Plugin) : Plugin :=
  fold_left (fun q cb => runCallback h cb q) (pending p) (take_pending p).

(** ** Settings *)

(** [DEFAULT_SETTINGS]. *)
Definition DEFAULT_SETTINGS : SmoothTypingSettings :=
  {| blinkSpeed := 12 # 10;
     blinkDelay := 0;
     characterMovementTime := 80;
     cursorWidth := 1;
     cursorColor := Some "#ffffff"%string |}.

(** What [loadData()] resolves to when something is stored: an object that
    has some of the settings' keys.  An absent key is [None]; the key
    [cursorColor] can be present with the value [null]. *)
Record StoredSettings : Type := mkStored {
  stored_blinkSpeed : option Q;
  stored_blinkDelay : option Q;
  stored_characterMovementTime : option Q;
  stored_cursorWidth : option Q;
  stored_cursorColor : option (option string)
}.

Definition own {A : Type} (stored : option A) (current : A) : A :=
  match stored with
  | Some v => v
  | None => current
  end.

(** [Object.assign(target, source)]: every key the source has overwrites
    the target's; a [null] source is skipped. *)
Definition Object_assign (target : SmoothTypingSettings)
    (source : option StoredSettings) : SmoothTypingSettings :=
  match source with
  | None => target
  | Some s =>
      {| blinkSpeed := own (stored_blinkSpeed s) (blinkSpeed target);
         blinkDelay := own (stored_blinkDelay s) (blinkDelay target);
         characterMovementTime :=
           own (stored_characterMovementTime s) (characterMovementTime target);
         cursorWidth := own (stored_cursorWidth s) (cursorWidth target);
         cursorColor := own (stored_cursorColor s) (cursorColor target) |}
  end.

(** [loadSettings()]: [Object.assign({}, DEFAULT_SETTINGS, await this.loadData())]. *)
Definition loadSettings (data : option StoredSettings) : SmoothTypingSettings :=
  Object_assign DEFAULT_SETTINGS data.

(** ** Plugin start *)

(** The span [createSpan] returns: nothing set yet. *)
Definition createSpan : CursorElement :=
  mkCursorElement DisplayUnset None None None None None None.

(** The field initialisers of the class, with the settings [loadSettings]
    assigns and the element [onload] creates; [constructed] is what
    [Date.now()] returned when the fields were initialised. *)
Definition loaded (constructed : Q) (data : option StoredSettings) : Plugin :=
  {| settings := loadSettings data;
     cursorElement := createSpan;
     prevCursorCoords := {| left := 0; top := 0 |};
     prevCursorPos := Some {| line := 0; ch := 0 |};
     prevIconCoords := Some {| left := 0; top := 0 |};
     prevFrameTime := constructed;
     blinkStartTime := constructed;
     remainingMoveTime := 0;
     pending := [] |}.

(** [onload()]. *)
Definition onload (constructed : Q) (data : option StoredSettings) (h : Host) : Plugin :=
  let p1 := loaded constructed data in
  let p2 := changeCursorColour h None p1 in
  let p3 := requestAnimationFrame ResetBlink p2 in
  updateCursor h p3.

(** ** Transitions of the caret, as the smooth-move engine sees them *)

(** The column delta between two caret positions. *)
Definition columnDelta (prev curr : Position) : Z := Z.abs (ch prev - ch curr).

(** A sharp transition: a caret position is absent, or the line changed, or
    the column delta is neither 0 nor 1, or the column delta is 1 on the
    same line with another vertical pixel coordinate (a line wrap). *)
Definition sharpTransition (p : Plugin) (curr : option Position)
    (coords : Coordinates) : Prop :=
  match curr, prevCursorPos p with
  | Some c, Some prev =>
      line prev <> line c
      \/ (columnDelta prev c <> 0%Z /\ columnDelta prev c <> 1%Z)
      \/ (columnDelta prev c = 1%Z /\ line prev = line c
          /\ ~ top coords == top (prevCursorCoords p))
  | _, _ => True
  end.

(** A smooth step: column delta 1, same line, same vertical pixel
    coordinate. *)
Definition smoothStep (p : Plugin) (curr : Position) (coords : Coordinates) : Prop :=
  exists prev, prevCursorPos p = Some prev
    /\ columnDelta prev curr = 1%Z
    /\ line prev = line curr
    /\ top coords == top (prevCursorCoords p).

(** No change of the caret position. *)
Definition unmoved (p : Plugin) (curr : Position) : Prop :=
  exists prev, prevCursorPos p = Some prev
    /\ columnDelta prev curr = 0%Z
    /\ line prev = line curr.

(** The fields the smooth-move engine reads. *)
Definition sameEngine (a b : Plugin) : Prop :=
  settings a = settings b
  /\ prevCursorCoords a = prevCursorCoords b
  /\ prevCursorPos a = prevCursorPos b
  /\ remainingMoveTime a = remainingMoveTime b.

(** The fields the smooth-move engine leaves alone. *)
Definition sameElsewhere (a b : Plugin) : Prop :=
  settings a = settings b
  /\ cursorElement a = cursorElement b
  /\ prevCursorCoords a = prevCursorCoords b
  /\ prevIconCoords a = prevIconCoords b
  /\ prevFrameTime a = prevFrameTime b
  /\ blinkStartTime a = blinkStartTime b
  /\ pending a = pending b.

(** ** Scenarios *)

(** A host whose editor is focused, with the caret at [pos], measured at
    [rect], and every clock reading equal to [now]. *)
Definition typingHost (now : Q) (pos : Position) (rect : DOMRect) : Host :=
  {| getSelection :=
       Some {| focusNode := Some {| rangeRect := fun _ _ => rect |};
               focusOffset := 5 |};
     activeEditor :=
       Some {| containerEl := Some "cm-editor cm-focused"%string;
               getCursor := pos |};
     bodyClassList := ["theme-dark"%string];
     nowFrame := now;
     nowBlink := now;
     nowReset := now |}.

(** The same host once the editor has lost the focus. *)
Definition blurredHost (now : Q) (pos : Position) (rect : DOMRect) : Host :=
  {| getSelection :=
       Some {| focusNode := Some {| rangeRect := fun _ _ => rect |};
               focusOffset := 5 |};
     activeEditor :=
       Some {| containerEl := Some "cm-editor"%string; getCursor := pos |};
     bodyClassList := ["theme-dark"%string];
     nowFrame := now;
     nowBlink := now;
     nowReset := now |}.

(** A host without selection. *)
Definition idleHost (now : Q) : Host :=
  {| getSelection := None;
     activeEditor := None;
     bodyClassList := [];
     nowFrame := now;
     nowBlink := now;
     nowReset := now |}.

(** The plugin at rest at time 1000: caret and icon at (100, 50) on line 3,
    column 4, default settings. *)
Definition atRest : Plugin :=
  {| settings := DEFAULT_SETTINGS;
     cursorElement := set_display DisplayBlock createSpan;
     prevCursorCoords := {| left := 100; top := 50 |};
     prevCursorPos := Some {| line := 3; ch := 4 |};
     prevIconCoords := Some {| left := 100; top := 50 |};
     prevFrameTime := 1000;
     blinkStartTime := 0;
     remainingMoveTime := 0;
     pending := [UpdateCursor] |}.

(** One character typed: the caret is at column 5, 10 px to the right. *)
Definition typedPos : Position := {| line := 3; ch := 5 |}.
Definition typedRect : DOMRect :=
  {| rect_left := 110; rect_top := 50; rect_height := 18 |}.

(** The frames that follow the keystroke, one every 16 ms. *)
Definition typedFrame (n : Z) : Host :=
  typingHost (1000 + 16 * inject_Z n) typedPos typedRect.

(** The plugin one frame after the keystroke: 64 ms of the move remain. *)
Definition midMove : Plugin := animationFrame (typedFrame 1) atRest.

Fixpoint frames (hs : list Host) (p : Plugin) : list Plugin :=
  match hs with
  | [] => []
  | h :: rest => let q := animationFrame h p in q :: frames rest q
  end.

(** ** The blink wave *)

(** The remainder of [e] modulo a positive period [period], as arithmetic
    has it: [e] minus the whole periods below it. *)
Definition floorMod (e period : Q) : Q :=
  e - period * inject_Z (Qfloor (e / period)).

(** The plugin at rest with a blink period of one second and no delay,
    the blink started at time 0. *)
Definition blinking : Plugin :=
  {| settings := mkSettings 1 0 80 1 None;
     cursorElement := set_display DisplayBlock createSpan;
     prevCursorCoords := {| left := 100; top := 50 |};
     prevCursorPos := Some {| line := 3; ch := 4 |};
     prevIconCoords := Some {| left := 100; top := 50 |};
     prevFrameTime := 0;
     blinkStartTime := 0;
     remainingMoveTime := 0;
     pending := [UpdateCursor] |}.

(** The same with a blink delay of half a second. *)
Definition lingering : Plugin :=
  {| settings := mkSettings 1 (1 # 2) 80 1 None;
     cursorElement := cursorElement blinking;
     prevCursorCoords := prevCursorCoords blinking;
     prevCursorPos := prevCursorPos blinking;
     prevIconCoords := prevIconCoords blinking;
     prevFrameTime := 0;
     blinkStartTime := 0;
     remainingMoveTime := 0;
     pending := [UpdateCursor] |}.

(** ** Typing sessions *)

(** A frame of a typing session: the caret is found, time has passed since
    the frame before, and the caret took a smooth step or stayed. *)
Definition typingTick (h : Host) (p : Plugin) : Prop :=
  exists pos rect,
    caretSample h = Some (pos, rect)
    /\ 0 < nowFrame h - prevFrameTime p
    /\ (smoothStep p pos (rectCoords rect) \/ unmoved p pos).

Fixpoint typingSession (hs : list Host) (p : Plugin) : Prop :=
  match hs with
  | [] => True
  | h :: rest => typingTick h p /\ typingSession rest (updateCursor h p)
  end.

(** What a frame of a typing session does to the remaining time.  On a
    smooth step the classification sets it to the configured time, and the
    frame time is taken off that; on a frame without move the frame time is
    taken off what remained. *)
Definition tickDecay (h : Host) (p : Plugin) : Prop :=
  forall pos rect,
    caretSample h = Some (pos, rect) ->
    let t := nowFrame h - prevFrameTime p in
    let configured := characterMovementTime (settings p) in
    (smoothStep p pos (rectCoords rect) ->
       (forall prev, prevCursorPos p = Some prev ->
          remainingMoveTime (classify prev pos (rectCoords rect) p) = configured)
       /\ remainingMoveTime (updateCursor h p) == Qmax 0 (configured - t))
    /\ (unmoved p pos ->
       remainingMoveTime (updateCursor h p) == Qmax 0 (remainingMoveTime p - t)
       /\ remainingMoveTime (updateCursor h p) <= remainingMoveTime p).

Fixpoint sessionDecay (hs : list Host) (p : Plugin) : Prop :=
  match hs with
  | [] => True
  | h :: rest => tickDecay h p /\ sessionDecay rest (updateCursor h p)
  end.

(** A second keystroke: the caret at column 6, 10 px further. *)
Definition secondPos : Position := {| line := 3; ch := 6 |}.
Definition secondRect : DOMRect :=
  {| rect_left := 120; rect_top := 50; rect_height := 18 |}.

(** A keystroke, a frame at rest, a second keystroke with 48 ms of the
    first move left. *)
Definition twoKeys : list Host :=
  [ typedFrame 1; typedFrame 2; typingHost 1048 secondPos secondRect ].

(** ** The keystroke scenario *)

(** The fraction a run of [updateCursor] computes, when it finds the
    caret. *)
Definition frameFraction (h : Host) (p : Plugin) : option Q :=
  match caretSample h with
  | Some (pos, rect) =>
      Some (fst (handleSmoothTyping (Some pos) (rectCoords rect)
                   (nowFrame h - prevFrameTime p) p))
  | None => None
  end.

(** The fractions computed frame after frame.  A blink reset that runs in
    the same frame before [updateCursor] changes [blinkStartTime] alone,
    which the engine does not read. *)
Fixpoint frameFractions (hs : list Host) (p : Plugin) : list (option Q) :=
  match hs with
  | [] => []
  | h :: rest =>
      frameFraction h (take_pending p) :: frameFractions rest (animationFrame h p)
  end.

(** The five frames after the keystroke. *)
Definition keystroke : list Host :=
  [ typedFrame 1; typedFrame 2; typedFrame 3; typedFrame 4; typedFrame 5 ].

(** A list of numbers that are all present and equal, as rationals, to
    those of the second list. *)
Definition numbers (l : list (option Q)) (expected : list Q) : Prop :=
  Forall2 (fun o x => exists y, o = Some y /\ y == x) l expected.

(** Whether a callback is the blink reset. *)
Definition isReset (cb : FrameCallback) : bool :=
  match cb with
  | ResetBlink => true
  | UpdateCursor => false
  end.

(** The colour [changeCursorColour()] picks for the theme. *)
Definition themeColour (h : Host) : string :=
  if classList_contains (bodyClassList h) "theme-dark"
  then "#ffffff"%string else "#000000"%string.

(** A stored object that holds a cursor colour and nothing else. *)
Definition storedColour (c : string) : StoredSettings :=
  mkStored None None None None (Some (Some c)).

(** A host on the light theme. *)
Definition lightHost (now : Q) : Host :=
  {| getSelection := None;
     activeEditor := None;
     bodyClassList := ["theme-light"%string];
     nowFrame := now;
     nowBlink := now;
     nowReset := now |}.

(** ** Runs of the frame loop *)

(** Successive runs of [updateCursor], one per host, and successive
    animation frames. *)
Definition ticks (hs : list Host) (p : Plugin) : Plugin :=
  fold_left (fun q h => updateCursor h q) hs p.

Definition animate (hs : list Host) (p : Plugin) : Plugin :=
  fold_left (fun q h => animationFrame h q) hs p.

(** How many runs of [updateCursor], and how many blink resets, a queue
    holds. *)
Definition countUpdates (l : list FrameCallback) : nat :=
  length (filter (fun cb => negb (isReset cb)) l).

Definition countResets (l : list FrameCallback) : nat :=
  length (filter isReset l).

(** The clock readings of the frames do not go back, from [from] on. *)
Fixpoint clockAdvances (from : Q) (hs : list Host) : Prop :=
  match hs with
  | [] => True
  | h :: rest => from <= nowFrame h /\ clockAdvances (nowFrame h) rest
  end.

(** The remaining time lies between 0 and the configured time. *)
Definition withinConfigured (p : Plugin) : Prop :=
  0 <= remainingMoveTime p
  /\ remainingMoveTime p <= Qmax 0 (characterMovementTime (settings p)).

(** Frames in which the caret is found where it was, each later than the
    one before. *)
Fixpoint restingSession (hs : list Host) (p : Plugin) : Prop :=
  match hs with
  | [] => True
  | h :: rest =>
      (exists pos rect,
         caretSample h = Some (pos, rect)
         /\ 0 < nowFrame h - prevFrameTime p
         /\ unmoved p pos)
      /\ restingSession rest (updateCursor h p)
  end.

(** ** Saving the settings *)

(** [saveSettings()]: [saveData(this.settings)] stores every key of the
    settings object, a [null] colour included. *)
Definition saveSettings (p : Plugin) : StoredSettings :=
  {| stored_blinkSpeed := Some (blinkSpeed (settings p));
     stored_blinkDelay := Some (blinkDelay (settings p));
     stored_characterMovementTime := Some (characterMovementTime (settings p));
     stored_cursorWidth := Some (cursorWidth (settings p));
     stored_cursorColor := Some (cursorColor (settings p)) |}.

(** ** The colour setting of the settings tab *)

Definition set_settings (s : SmoothTypingSettings) (p : Plugin) : Plugin :=
  mkPlugin s (cursorElement p) (prevCursorCoords p) (prevCursorPos p)
           (prevIconCoords p) (prevFrameTime p) (blinkStartTime p)
           (remainingMoveTime p) (pending p).

(** [this.plugin.settings.cursorColor = c]. *)
Definition set_cursorColor (c : option string) (p : Plugin) : Plugin :=
  set_settings
    (mkSettings (blinkSpeed (settings p)) (blinkDelay (settings p))
                (characterMovementTime (settings p)) (cursorWidth (settings p)) c)
    p.

(** The [onChange] handler of the colour picker, up to its call of
    [saveSettings]. *)
Definition colourPicked (h : Host) (value : string) (p : Plugin) : Plugin :=
  changeCursorColour h (Some value) (set_cursorColor (Some value) p).

(** The [onClick] handler of the colour's reset button, up to its call of
    [saveSettings].  Whether the host's [setValue] calls the picker's
    [onChange] handler is not in the source; [notifies] says so. *)
Definition colourReset (h : Host) (notifies : bool) (p : Plugin) : Plugin :=
  let p1 := if notifies then colourPicked h "#ffffff" p else p in
  let p2 := set_cursorColor None p1 in
  changeCursorColour h None p2.

(** ** Runs that the DOM interrupts *)

(** [updateCursor] calls [setStart(focusNode, focusOffset)] and, at focus
    offset 0, [setEnd(focusNode, 1)]; a boundary offset beyond the length of
    the node makes the call throw, and nothing in the method catches it.
    The length of a node (the characters of a text node, the children of an
    element) is not among the fields of [Node]: it is the parameter
    [nodeLength].  [rangeThrows] tells whether a run that reaches line 125
    throws there or at line 126. *)
Definition rangeThrows (nodeLength : Node -> Z) (h : Host) : bool :=
  match getSelection h with
  | Some selection =>
      match focusNode selection, focusedEditor h with
      | Some node, Some _ =>
          let offset := focusOffset selection in
          (offset <? 0)%Z
          || (nodeLength node <? offset)%Z
          || ((offset =? 0)%Z && (nodeLength node <? 1)%Z)
      | _, _ => false
      end
  | None => false
  end.

(** [updateCursor()] with the exception: a run that throws has stored the
    frame time and shown the overlay, and ends there, before it draws,
    records or registers anything. *)
Definition updateCursorDOM (nodeLength : Node -> Z) (h : Host) (p : Plugin) : Plugin :=
  if rangeThrows nodeLength h
  then bringIconBack (snd (getTimeSinceLastFrame h p))
  else updateCursor h p.

Definition runCallbackDOM (nodeLength : Node -> Z) (h : Host)
    (cb : FrameCallback) (p : Plugin) : Plugin :=
  match cb with
  | ResetBlink => set_blinkStartTime (nowReset h) p
  | UpdateCursor => updateCursorDOM nodeLength h p
  end.

(** One animation frame; a callback that throws does not keep the
    callbacks after it from running. *)
Definition animationFrameDOM (nodeLength : Node -> Z) (h : Host) (p : Plugin) : Plugin :=
  fold_left (fun q cb => runCallbackDOM nodeLength h cb q) (pending p) (take_pending p).

Definition animateDOM (nodeLength : Node -> Z) (hs : list Host) (p : Plugin) : Plugin :=
  fold_left (fun q h => animationFrameDOM nodeLength h q) hs p.

(** [onload()] with the exception: its last statement is the first run of
    [updateCursor]. *)
Definition onloadDOM (nodeLength : Node -> Z) (constructed : Q)
    (data : option StoredSettings) (h : Host) : Plugin :=
  let p1 := loaded constructed data in
  let p2 := changeCursorColour h None p1 in
  let p3 := requestAnimationFrame ResetBlink p2 in
  updateCursorDOM nodeLength h p3.

(** A host whose caret sits at offset 0 of a focus node; and two measures
    of length. *)
Definition lineStartHost (now : Q) (pos : Position) (rect : DOMRect) : Host :=
  {| getSelection :=
       Some {| focusNode := Some {| rangeRect := fun _ _ => rect |};
               focusOffset := 0 |};
     activeEditor :=
       Some {| containerEl := Some "cm-editor cm-focused"%string;
               getCursor := pos |};
     bodyClassList := ["theme-dark"%string];
     nowFrame := now;
     nowBlink := now;
     nowReset := now |}.

Definition twelveLong : Node -> Z := fun _ => 12%Z.

(** Nodes measured flat (height 0) are empty, the others twelve units
    long. *)
Definition emptyWhenFlat : Node -> Z :=
  fun node => if Qeq_bool (rect_height (rangeRect node 0 1)) 0 then 0%Z else 12%Z.

Definition flatRect : DOMRect :=
  {| rect_left := 60; rect_top := 68; rect_height := 0 |}.

(** * Properties *)

(** ** Comparisons *)

Lemma le_true (a b : Q) : JS.le a b = true <-> a <= b.
Proof. apply Qle_bool_iff. Qed.

Lemma le_false (a b : Q) : JS.le a b = false <-> b < a.
Proof.
  unfold JS.le. split; intro H.
  - apply Qnot_le_lt. intro Hle. apply Qle_bool_iff in Hle. congruence.
  - destruct (Qle_bool a b) eqn:E; trivial.
    apply Qle_bool_iff in E. lra.
Qed.

Lemma lt_true (a b : Q) : JS.lt a b = true <-> a < b.
Proof. unfold JS.lt. rewrite negb_true_iff. apply (le_false b a). Qed.

Lemma lt_false (a b : Q) : JS.lt a b = false <-> b <= a.
Proof. unfold JS.lt. rewrite negb_false_iff. apply Qle_bool_iff. Qed.

Lemma strict_eq_true (a b : Q) : JS.strict_eq a b = true <-> a == b.
Proof. apply Qeq_bool_iff. Qed.

Lemma strict_eq_false (a b : Q) : JS.strict_eq a b = false <-> ~ a == b.
Proof.
  unfold JS.strict_eq. split; intro H.
  - intro E. apply Qeq_bool_iff in E. congruence.
  - destruct (Qeq_bool a b) eqn:E; trivial.
    apply Qeq_bool_iff in E. contradiction.
Qed.

Lemma strict_ne_true (a b : Q) : JS.strict_ne a b = true <-> ~ a == b.
Proof. unfold JS.strict_ne. rewrite negb_true_iff. apply strict_eq_false. Qed.

Lemma strict_ne_false (a b : Q) : JS.strict_ne a b = false <-> a == b.
Proof. unfold JS.strict_ne. rewrite negb_false_iff. apply strict_eq_true. Qed.

(** ** Smooth-move engine: the output stage *)

(** A quotient by a positive time has the sign of the dividend. *)
Lemma quotient_pos (t r : Q) : 0 < r -> 0 < t -> 0 < t / r.
Proof.
  intros Hr Ht. unfold Qdiv. apply Qmult_lt_0_compat; trivial.
  apply Qinv_lt_0_compat; trivial.
Qed.

Lemma quotient_zero (t r : Q) : 0 < r -> (t / r == 0 <-> t == 0).
Proof.
  intros Hr. split; intro H.
  - assert (E : t == (t / r) * r) by (field; lra).
    rewrite E, H. ring.
  - rewrite H. field. lra.
Qed.

Lemma quotient_nonneg (t r : Q) : 0 < r -> 0 <= t -> 0 <= t / r.
Proof.
  intros Hr Ht. unfold Qdiv. apply Qmult_le_0_compat; trivial.
  apply Qinv_le_0_compat. lra.
Qed.

(** The fraction of the output stage is zero exactly when no time has
    passed. *)
Lemma fraction_zero (t r : Q) : 0 < r -> (Qmin (t / r) 1 == 0 <-> t == 0).
Proof.
  intros Hr. rewrite <- (quotient_zero t r Hr).
  destruct (Q.min_spec (t / r) 1) as [[_ E] | [L E]]; rewrite E.
  - tauto.
  - split; intro H; [ discriminate H | lra ].
Qed.

(** With no time left the stage returns 0 and clears the remaining time. *)
Lemma travel_idle (curr : option Position) (t : Q) (p : Plugin) :
  remainingMoveTime p <= 0 ->
  travel curr t p = (0, set_prevCursorPos curr (set_remainingMoveTime 0 p)).
Proof.
  intros H. unfold travel.
  apply le_true in H. rewrite H. reflexivity.
Qed.

(** With time left and a frame time other than 0 the stage returns the
    clamped quotient and subtracts the frame time. *)
Lemma travel_moving (curr : option Position) (t : Q) (p : Plugin) :
  0 < remainingMoveTime p -> ~ t == 0 ->
  travel curr t p =
    (Qmin (t / remainingMoveTime p) 1,
     set_prevCursorPos curr
       (set_remainingMoveTime (Qmax 0 (remainingMoveTime p - t)) p)).
Proof.
  intros Hr Ht. unfold travel.
  apply le_false in Hr. rewrite Hr. apply le_false in Hr.
  unfold returnStatement.
  assert (E : JS.strict_eq (Qmin (t / remainingMoveTime p) 1) 0 = false).
  { apply strict_eq_false. rewrite fraction_zero; trivial. }
  rewrite E. reflexivity.
Qed.

(** With time left and a frame time of 0 the stage returns 0 and clears the
    remaining time. *)
Lemma travel_stalled (curr : option Position) (t : Q) (p : Plugin) :
  0 < remainingMoveTime p -> t == 0 ->
  fst (travel curr t p) == 0 /\
  snd (travel curr t p) = set_prevCursorPos curr (set_remainingMoveTime 0 p).
Proof.
  intros Hr Ht. unfold travel.
  apply le_false in Hr. rewrite Hr. apply le_false in Hr.
  unfold returnStatement.
  assert (E : JS.strict_eq (Qmin (t / remainingMoveTime p) 1) 0 = true).
  { apply strict_eq_true. rewrite fraction_zero; trivial. }
  rewrite E. split; [ apply fraction_zero; trivial | reflexivity ].
Qed.

(** Whatever the stage does, it records the current caret position and
    leaves a remaining time that is not negative. *)
Lemma travel_prevCursorPos (curr : option Position) (t : Q) (p : Plugin) :
  prevCursorPos (snd (travel curr t p)) = curr.
Proof.
  unfold travel, returnStatement.
  destruct (JS.le (remainingMoveTime p) 0); simpl; reflexivity.
Qed.

Lemma travel_remaining_nonneg (curr : option Position) (t : Q) (p : Plugin) :
  0 <= remainingMoveTime (snd (travel curr t p)).
Proof.
  unfold travel, returnStatement.
  destruct (JS.le (remainingMoveTime p) 0); simpl; [ lra | ].
  destruct (JS.strict_eq _ 0); simpl; [ lra | ].
  apply Q.le_max_l.
Qed.

Lemma travel_fraction_bounds (curr : option Position) (t : Q) (p : Plugin) :
  0 <= t -> 0 <= fst (travel curr t p) <= 1.
Proof.
  intros Ht. unfold travel, returnStatement.
  destruct (JS.le (remainingMoveTime p) 0) eqn:E; simpl; [ lra | ].
  apply le_false in E. split.
  - apply Q.min_glb; [ apply quotient_nonneg; trivial | lra ].
  - apply Q.le_min_r.
Qed.

(** ** Smooth-move engine: the whole call *)

Lemma handleSmoothTyping_present (p : Plugin) (prev curr : Position)
    (coords : Coordinates) (t : Q) :
  prevCursorPos p = Some prev ->
  handleSmoothTyping (Some curr) coords t p =
    travel (Some curr) t (classify prev curr coords p).
Proof. intros E. unfold handleSmoothTyping. rewrite E. reflexivity. Qed.

Lemma handleSmoothTyping_absent (p : Plugin) (curr : option Position)
    (coords : Coordinates) (t : Q) :
  curr = None \/ prevCursorPos p = None ->
  handleSmoothTyping curr coords t p =
    (0, set_prevCursorPos curr (set_remainingMoveTime 0 p)).
Proof.
  intros H. unfold handleSmoothTyping.
  destruct curr as [c|]; [ | reflexivity ].
  destruct H as [H | H]; [ discriminate H | ].
  rewrite H. reflexivity.
Qed.

(** Every call records the caret position it was given. *)
Lemma handleSmoothTyping_prevCursorPos (p : Plugin) (curr : option Position)
    (coords : Coordinates) (t : Q) :
  prevCursorPos (snd (handleSmoothTyping curr coords t p)) = curr.
Proof.
  unfold handleSmoothTyping.
  destruct curr as [c|]; [ | reflexivity ].
  destruct (prevCursorPos p) as [prev|]; [ | reflexivity ].
  apply travel_prevCursorPos.
Qed.

(** Every call leaves a remaining time that is not negative. *)
Lemma handleSmoothTyping_remaining_nonneg (p : Plugin) (curr : option Position)
    (coords : Coordinates) (t : Q) :
  0 <= remainingMoveTime (snd (handleSmoothTyping curr coords t p)).
Proof.
  unfold handleSmoothTyping.
  destruct curr as [c|]; [ | simpl; lra ].
  destruct (prevCursorPos p) as [prev|]; [ | simpl; lra ].
  apply travel_remaining_nonneg.
Qed.

(** The output of the engine when the frame time is not 0: with time left
    after the classification, the fraction is the clamped quotient and the
    frame time is subtracted from the time left; without, the fraction
    is 0. *)
Lemma handleSmoothTyping_output (p : Plugin) (prev curr : Position)
    (coords : Coordinates) (t : Q) :
  prevCursorPos p = Some prev ->
  let q := classify prev curr coords p in
  let r := remainingMoveTime q in
  (0 < r -> ~ t == 0 ->
     handleSmoothTyping (Some curr) coords t p =
       (Qmin (t / r) 1,
        set_prevCursorPos (Some curr) (set_remainingMoveTime (Qmax 0 (r - t)) q)))
  /\ (r <= 0 ->
     handleSmoothTyping (Some curr) coords t p =
       (0, set_prevCursorPos (Some curr) (set_remainingMoveTime 0 q))).
Proof.
  intros E q r. rewrite (handleSmoothTyping_present p prev curr coords t E).
  split.
  - intros Hr Ht. apply travel_moving; trivial.
  - intros Hr. apply travel_idle; trivial.
Qed.

(** C1.  The smooth-move engine at a frame time of 0.  When time is left
    after the classification and [timeSinceLastFrame] is 0, the call returns
    the fraction 0 = min(0 / remaining, 1) and records the caret position,
    but it sets [remainingMoveTime] to 0 where max(0, remaining - 0) is the
    time that was left: the move in flight is dropped. *)
Theorem handleSmoothTyping_zero_frame_time (p : Plugin) (prev curr : Position)
    (coords : Coordinates) (t : Q) :
  prevCursorPos p = Some prev ->
  0 < remainingMoveTime (classify prev curr coords p) ->
  t == 0 ->
  let r := remainingMoveTime (classify prev curr coords p) in
  let out := handleSmoothTyping (Some curr) coords t p in
  fst out == Qmin (t / r) 1
  /\ prevCursorPos (snd out) = Some curr
  /\ remainingMoveTime (snd out) = 0
  /\ ~ remainingMoveTime (snd out) == Qmax 0 (r - t).
Proof.
  intros E Hr Ht r out. subst out.
  rewrite (handleSmoothTyping_present p prev curr coords t E).
  destruct (travel_stalled (Some curr) t _ Hr Ht) as [F S].
  rewrite S. simpl. repeat split.
  - rewrite F. symmetry. apply fraction_zero; trivial.
  - fold r. rewrite Ht. intro H.
    assert (M : Qmax 0 (r - 0) == r - 0) by (apply Q.max_r; unfold r; lra).
    rewrite M in H. unfold r in H. lra.
Qed.

(** The defect on the frame loop: a second frame callback within the
    millisecond of the first drops the 64 ms that remained and puts the icon
    on the caret. *)
Lemma handleSmoothTyping_zero_frame_time_witness :
  remainingMoveTime midMove == 64
  /\ remainingMoveTime (animationFrame (typedFrame 1) midMove) == 0
  /\ prevIconCoords (animationFrame (typedFrame 1) midMove)
       = Some (rectCoords typedRect)
  /\ (let out := handleSmoothTyping (Some typedPos) (rectCoords typedRect) 0 midMove in
      fst out == Qmin (0 / 64) 1
      /\ prevCursorPos (snd out) = Some typedPos
      /\ remainingMoveTime (snd out) = 0
      /\ ~ remainingMoveTime (snd out) == Qmax 0 (64 - 0)).
Proof.
  split; [ vm_compute; reflexivity | ].
  split; [ vm_compute; reflexivity | ].
  split; [ vm_compute; reflexivity | ].
  apply (handleSmoothTyping_zero_frame_time midMove typedPos typedPos
           (rectCoords typedRect) 0).
  - vm_compute. reflexivity.
  - vm_compute. reflexivity.
  - reflexivity.
Defined.

(** ** Classification *)

Lemma classify_sharp (p : Plugin) (prev curr : Position) (coords : Coordinates) :
  prevCursorPos p = Some prev ->
  sharpTransition p (Some curr) coords ->
  classify prev curr coords p = set_remainingMoveTime 0 p.
Proof.
  intros E H. unfold sharpTransition in H. rewrite E in H.
  unfold classify, columnDelta in *.
  destruct (Z.eqb_spec (Z.abs (ch prev - ch curr)) 1) as [C1 | C1];
    destruct (Z.eqb_spec (Z.abs (ch prev - ch curr)) 0) as [C0 | C0];
    destruct (Z.eqb_spec (Z.abs (line prev - line curr)) 0) as [L0 | L0];
    simpl; try reflexivity; try lia.
  - destruct H as [H | [[_ H] | [_ [_ H]]]]; try lia.
    apply strict_ne_true in H. rewrite H. reflexivity.
Qed.

Lemma classify_smoothStep (p : Plugin) (prev curr : Position) (coords : Coordinates) :
  prevCursorPos p = Some prev ->
  smoothStep p curr coords ->
  classify prev curr coords p =
    set_remainingMoveTime (characterMovementTime (settings p)) p.
Proof.
  intros E [prev' [E' [C [L T]]]].
  rewrite E in E'. injection E' as <-.
  unfold classify, columnDelta in *.
  rewrite C, L, Z.sub_diag. simpl.
  apply strict_ne_false in T. rewrite T. reflexivity.
Qed.

Lemma classify_unmoved (p : Plugin) (prev curr : Position) (coords : Coordinates) :
  prevCursorPos p = Some prev ->
  unmoved p curr ->
  classify prev curr coords p = p.
Proof.
  intros E [prev' [E' [C L]]].
  rewrite E in E'. injection E' as <-.
  unfold classify, columnDelta in *.
  rewrite C, L, Z.sub_diag. reflexivity.
Qed.

(** C2.  A sharp transition (an absent caret position, a changed line, a
    column delta that is neither 0 nor 1, or a column step of 1 on the same
    line with a changed vertical pixel coordinate) makes the call return the
    fraction 0 and leave [remainingMoveTime] at 0: whatever remained of a
    move in flight is gone after the call. *)
Theorem handleSmoothTyping_sharp (p : Plugin) (curr : option Position)
    (coords : Coordinates) (t : Q) :
  sharpTransition p curr coords ->
  handleSmoothTyping curr coords t p =
    (0, set_prevCursorPos curr (set_remainingMoveTime 0 p))
  /\ fst (handleSmoothTyping curr coords t p) = 0
  /\ remainingMoveTime (snd (handleSmoothTyping curr coords t p)) = 0.
Proof.
  intros H.
  assert (E : handleSmoothTyping curr coords t p =
              (0, set_prevCursorPos curr (set_remainingMoveTime 0 p))).
  { destruct curr as [c|];
      [ | apply handleSmoothTyping_absent; left; reflexivity ].
    destruct (prevCursorPos p) as [prev|] eqn:P;
      [ | apply handleSmoothTyping_absent; right; exact P ].
    rewrite (handleSmoothTyping_present p prev c coords t P).
    rewrite (classify_sharp p prev c coords P H).
    rewrite travel_idle; [ reflexivity | simpl; lra ]. }
  rewrite E. repeat split.
Qed.

(** A jump of three columns, a change of line, a wrapped line and a lost
    caret, each with 64 ms of a move in flight. *)
Lemma handleSmoothTyping_sharp_witness :
  remainingMoveTime midMove == 64
  /\ remainingMoveTime
       (snd (handleSmoothTyping (Some {| line := 3; ch := 8 |})
               (rectCoords typedRect) 16 midMove)) = 0
  /\ remainingMoveTime
       (snd (handleSmoothTyping (Some {| line := 4; ch := 5 |})
               (rectCoords typedRect) 16 midMove)) = 0
  /\ remainingMoveTime
       (snd (handleSmoothTyping (Some {| line := 3; ch := 6 |})
               {| left := 0; top := 68 |} 16 midMove)) = 0
  /\ fst (handleSmoothTyping None (rectCoords typedRect) 16 midMove) = 0
  /\ remainingMoveTime
       (snd (handleSmoothTyping None (rectCoords typedRect) 16 midMove)) = 0.
Proof.
  split; [ vm_compute; reflexivity | ].
  split; [ apply (handleSmoothTyping_sharp midMove); vm_compute; right; left; split; discriminate | ].
  split; [ apply (handleSmoothTyping_sharp midMove); vm_compute; left; discriminate | ].
  split; [ apply (handleSmoothTyping_sharp midMove); vm_compute;
           right; right; repeat split; discriminate | ].
  split; apply (handleSmoothTyping_sharp midMove None); exact I.
Defined.

(** ** Range of the fraction *)

(** C5, as the code has it.  When the frame time is not negative, the
    fraction the engine returns lies between 0 and 1, whatever the state and
    the caret. *)
Theorem handleSmoothTyping_fraction_range (p : Plugin) (curr : option Position)
    (coords : Coordinates) (t : Q) :
  0 <= t ->
  0 <= fst (handleSmoothTyping curr coords t p) <= 1.
Proof.
  intros Ht. unfold handleSmoothTyping.
  destruct curr as [c|]; [ | simpl; lra ].
  destruct (prevCursorPos p) as [prev|]; [ | simpl; lra ].
  apply travel_fraction_bounds; trivial.
Qed.

Lemma handleSmoothTyping_fraction_range_witness :
  0 <= 16
  /\ 0 <= fst (handleSmoothTyping (Some typedPos) (rectCoords typedRect) 16 midMove) <= 1.
Proof.
  split; [ lra | ].
  apply (handleSmoothTyping_fraction_range midMove (Some typedPos)
           (rectCoords typedRect) 16).
  lra.
Defined.

(** C5, as stated, fails: a frame time of -16 ms (the clock stepped back
    between two frames) with 64 ms of a move in flight gives the
    fraction -1/4. *)
Lemma handleSmoothTyping_fraction_negative :
  fst (handleSmoothTyping (Some typedPos) (rectCoords typedRect) (-16) midMove)
    == - (1 # 4)
  /\ ~ (0 <= fst (handleSmoothTyping (Some typedPos) (rectCoords typedRect)
                    (-16) midMove) <= 1).
Proof.
  split; [ vm_compute; reflexivity | ].
  intros [H _]. vm_compute in H. apply H. reflexivity.
Qed.

(** ** What each part of a frame touches *)

Lemma blinkCursor_frame (now : Q) (c : bool) (p : Plugin) :
  let q := snd (blinkCursor now c p) in
  sameEngine q p
  /\ cursorElement q = cursorElement p
  /\ prevIconCoords q = prevIconCoords p
  /\ prevFrameTime q = prevFrameTime p
  /\ blinkStartTime q = blinkStartTime p
  /\ pending q = pending p ++ (if c then [ResetBlink] else []).
Proof.
  unfold blinkCursor, resetCursor, sameEngine.
  destruct c; simpl; [ repeat split | ].
  destruct (JS.lt _ 0); [ | destruct (JS.lt_nan _ _) ];
    simpl; rewrite app_nil_r; repeat split.
Qed.

Lemma handleSmoothTyping_elsewhere (p : Plugin) (curr : option Position)
    (coords : Coordinates) (t : Q) :
  sameElsewhere (snd (handleSmoothTyping curr coords t p)) p.
Proof.
  unfold handleSmoothTyping, travel, classify, returnStatement, sameElsewhere.
  destruct curr as [c|]; [ | simpl; repeat split ].
  destruct (prevCursorPos p) as [prev|]; [ | simpl; repeat split ].
  destruct (_ || _); [ simpl; repeat split | ].
  destruct (_ && _).
  - destruct (JS.strict_ne _ _); simpl; [ repeat split | ].
    destruct (JS.le _ 0); simpl; [ repeat split | ].
    destruct (JS.strict_eq _ 0); simpl; repeat split.
  - destruct (JS.le _ 0); simpl; [ repeat split | ].
    destruct (JS.strict_eq _ 0); simpl; repeat split.
Qed.

(** The engine's result depends on the plugin through the four fields of
    [sameEngine] alone. *)
Lemma handleSmoothTyping_sameEngine (a b : Plugin) (curr : option Position)
    (coords : Coordinates) (t : Q) :
  sameEngine a b ->
  fst (handleSmoothTyping curr coords t a) = fst (handleSmoothTyping curr coords t b)
  /\ remainingMoveTime (snd (handleSmoothTyping curr coords t a))
     = remainingMoveTime (snd (handleSmoothTyping curr coords t b)).
Proof.
  intros [S [C [P R]]].
  unfold handleSmoothTyping, travel, classify, returnStatement.
  rewrite P, C, S.
  destruct curr as [c|]; [ | simpl; split; reflexivity ].
  destruct (prevCursorPos b) as [prev|]; [ | simpl; split; reflexivity ].
  destruct (_ || _); [ simpl; split; reflexivity | ].
  destruct (_ && _).
  - destruct (JS.strict_ne _ _); simpl; [ split; reflexivity | ].
    destruct (JS.le _ 0); simpl; [ split; reflexivity | ].
    destruct (JS.strict_eq _ 0); simpl; split; reflexivity.
  - rewrite R.
    destruct (JS.le _ 0); simpl; [ split; reflexivity | ].
    destruct (JS.strict_eq _ 0); simpl; split; reflexivity.
Qed.

(** ** The frame loop *)

(** A run of [updateCursor] that finds no caret to draw returns early: it
    has read the clock and registered the next run, and it hides the icon
    when a selection exists but the editor is not focused. *)
Lemma updateCursor_early (h : Host) (p : Plugin) :
  caretSample h = None ->
  updateCursor h p =
    scheduleNextUpdate
      (match caretRect h with
       | Some _ => removeIcon (set_prevFrameTime (nowFrame h) p)
       | None => set_prevFrameTime (nowFrame h) p
       end).
Proof.
  unfold caretSample, caretRect, updateCursor, getTimeSinceLastFrame.
  destruct (getSelection h) as [sel|]; [ | reflexivity ].
  destruct (focusNode sel) as [node|]; [ | reflexivity ].
  destruct (focusedEditor h) as [ed|]; [ discriminate | reflexivity ].
Qed.

(** A run of [updateCursor] that finds the caret: every field of the
    plugin after the run. *)
Lemma updateCursor_focused (h : Host) (p : Plugin) (pos : Position) (rect : DOMRect) :
  caretSample h = Some (pos, rect) ->
  let t := nowFrame h - prevFrameTime p in
  let coords := rectCoords rect in
  let moved := coordinatesChanged p coords in
  let out := handleSmoothTyping (Some pos) coords t p in
  let icon := iconCoords (fst out) (prevIconCoords p) coords in
  let q := updateCursor h p in
  settings q = settings p
  /\ prevCursorCoords q = coords
  /\ prevCursorPos q = Some pos
  /\ prevIconCoords q = Some icon
  /\ prevFrameTime q = nowFrame h
  /\ blinkStartTime q = blinkStartTime p
  /\ remainingMoveTime q = remainingMoveTime (snd out)
  /\ pending q = pending p ++ (if moved then [ResetBlink] else []) ++ [UpdateCursor]
  /\ cursorElement q =
       render icon (rect_height rect) (cursorWidth (settings p))
              (fst (blinkCursor (nowBlink h) moved p))
              (set_display DisplayBlock (cursorElement p)).
Proof.
  intros H t coords moved out icon q.
  subst q. unfold caretSample in H. unfold updateCursor, getTimeSinceLastFrame.
  destruct (getSelection h) as [sel|]; [ | discriminate ].
  destruct (focusNode sel) as [node|]; [ | discriminate ].
  destruct (focusedEditor h) as [ed|]; [ | discriminate ].
  injection H as Hpos Hrect. rewrite Hpos, Hrect.
  fold t. fold coords.
  set (p2 := bringIconBack (set_prevFrameTime (nowFrame h) p)).
  change (JS.strict_ne (left (prevCursorCoords p2)) (left coords)
          || JS.strict_ne (top (prevCursorCoords p2)) (top coords)) with moved.
  destruct (blinkCursor_frame (nowBlink h) moved p2)
    as [Eng [El [Ic [Ft [Bs Pe]]]]].
  assert (Op : fst (blinkCursor (nowBlink h) moved p2)
               = fst (blinkCursor (nowBlink h) moved p)).
  { unfold blinkCursor, resetCursor. destruct moved; [ reflexivity | ].
    simpl. destruct (JS.lt _ 0); [ reflexivity | ].
    destruct (JS.lt_nan _ _); reflexivity. }
  destruct (blinkCursor (nowBlink h) moved p2) as [opacity p3].
  simpl in Eng, El, Ic, Ft, Bs, Pe, Op.
  assert (Eng' : sameEngine p3 p).
  { destruct Eng as [A [B [C D]]]. repeat split; assumption. }
  destruct (handleSmoothTyping_sameEngine p3 p (Some pos) coords t Eng')
    as [Fr Re].
  pose proof (handleSmoothTyping_elsewhere p3 (Some pos) coords t)
    as [S4 [E4 [C4 [I4 [F4 [B4 P4]]]]]].
  pose proof (handleSmoothTyping_prevCursorPos p3 (Some pos) coords t) as Pp.
  destruct (handleSmoothTyping (Some pos) coords t p3) as [fraction p4].
  cbn [fst snd] in Fr, Re, S4, E4, C4, I4, F4, B4, P4, Pp.
  change (fraction = fst out) in Fr.
  change (remainingMoveTime p4 = remainingMoveTime (snd out)) in Re.
  destruct Eng' as [Se _].
  subst icon. clearbody out. simpl. rewrite <- Fr.
  rewrite I4, Ic, S4, Se, E4, El, B4, Bs, F4, Ft, P4, Pe, Re, Op.
  repeat split.
  - exact Pp.
  - rewrite <- app_assoc. reflexivity.
Qed.

(** ** Typing sessions *)

(** A smooth step restarts the move from the configured time, whatever was
    left of the move before. *)
Lemma handleSmoothTyping_step (p : Plugin) (curr : Position)
    (coords : Coordinates) (t : Q) :
  smoothStep p curr coords -> 0 < t ->
  remainingMoveTime (snd (handleSmoothTyping (Some curr) coords t p))
    == Qmax 0 (characterMovementTime (settings p) - t).
Proof.
  intros H Ht. destruct H as [prev [E H]].
  assert (S : smoothStep p curr coords) by (exists prev; tauto).
  rewrite (handleSmoothTyping_present p prev curr coords t E).
  rewrite (classify_smoothStep p prev curr coords E S).
  set (d := characterMovementTime (settings p)).
  destruct (Qlt_le_dec 0 d) as [Hd | Hd].
  - rewrite travel_moving; [ reflexivity | exact Hd | simpl; lra ].
  - rewrite travel_idle; [ | exact Hd ].
    simpl. symmetry. apply Q.max_l. lra.
Qed.

(** Without move the frame time is taken off the remaining time. *)
Lemma handleSmoothTyping_still (p : Plugin) (curr : Position)
    (coords : Coordinates) (t : Q) :
  unmoved p curr -> 0 <= remainingMoveTime p -> 0 < t ->
  remainingMoveTime (snd (handleSmoothTyping (Some curr) coords t p))
    == Qmax 0 (remainingMoveTime p - t).
Proof.
  intros H Hr Ht. destruct H as [prev [E H]].
  assert (U : unmoved p curr) by (exists prev; tauto).
  rewrite (handleSmoothTyping_present p prev curr coords t E).
  rewrite (classify_unmoved p prev curr coords E U).
  destruct (Qlt_le_dec 0 (remainingMoveTime p)) as [Hd | Hd].
  - rewrite travel_moving; [ reflexivity | exact Hd | lra ].
  - rewrite travel_idle; [ | exact Hd ].
    simpl. symmetry. apply Q.max_l. lra.
Qed.

Lemma updateCursor_remaining_nonneg (h : Host) (p : Plugin) :
  0 <= remainingMoveTime p -> 0 <= remainingMoveTime (updateCursor h p).
Proof.
  intros Hr. destruct (caretSample h) as [[pos rect]|] eqn:S.
  - destruct (updateCursor_focused h p pos rect S)
      as [_ [_ [_ [_ [_ [_ [R _]]]]]]].
    rewrite R. apply handleSmoothTyping_remaining_nonneg.
  - rewrite (updateCursor_early h p S).
    destruct (caretRect h); exact Hr.
Qed.

Lemma typingTick_decay (h : Host) (p : Plugin) :
  0 <= remainingMoveTime p -> typingTick h p -> tickDecay h p.
Proof.
  intros Hr [pos0 [rect0 [S0 [Ht _]]]] pos rect S t configured.
  destruct (updateCursor_focused h p pos rect S)
    as [_ [_ [_ [_ [_ [_ [R _]]]]]]].
  rewrite R. fold t. split.
  - intros St. split.
    + intros prev E. rewrite (classify_smoothStep p prev pos _ E St). reflexivity.
    + apply handleSmoothTyping_step; assumption.
  - intros U.
    pose proof (handleSmoothTyping_still p pos (rectCoords rect) t U Hr Ht) as D.
    split; [ exact D | ].
    rewrite D. apply Q.max_lub; unfold t in *; lra.
Qed.

(** C3, as the code has it.  In a run of frames with a positive frame time,
    each a smooth step (column delta 1, same line, same vertical pixel
    coordinate) or a frame without move, started with a remaining time that
    is not negative: on every smooth step the classification sets
    [remainingMoveTime] to the configured [characterMovementTime], whatever
    was left, and the frame ends with max(0, configured - frame time); on
    every frame without move [remainingMoveTime] becomes
    max(0, remaining - frame time) and does not increase. *)
Theorem typingSession_decay (hs : list Host) (p : Plugin) :
  0 <= remainingMoveTime p ->
  typingSession hs p ->
  sessionDecay hs p.
Proof.
  revert p. induction hs as [| h rest IH]; intros p Hr H.
  - exact I.
  - destruct H as [Tick Rest]. split.
    + apply typingTick_decay; assumption.
    + apply IH; [ apply updateCursor_remaining_nonneg; exact Hr | exact Rest ].
Qed.

Ltac caret_found := split; [ reflexivity | split; [ vm_compute; reflexivity | ] ].
Ltac caret_stepped :=
  left; eexists; split; [ reflexivity | repeat split; vm_compute; reflexivity ].
Ltac caret_stayed :=
  right; eexists; split; [ reflexivity | repeat split; vm_compute; reflexivity ].

Lemma twoKeys_session : typingSession twoKeys atRest.
Proof.
  split; [ exists typedPos, typedRect; caret_found; caret_stepped | ].
  split; [ exists typedPos, typedRect; caret_found; caret_stayed | ].
  split; [ exists secondPos, secondRect; caret_found; caret_stepped | ].
  exact I.
Qed.

(** Two keystrokes 48 ms apart: 64 ms remain after the first frame, 48 ms
    after the second, and the second keystroke leaves 64 ms again, not
    48 + 64. *)
Lemma typingSession_decay_witness :
  0 <= remainingMoveTime atRest
  /\ typingSession twoKeys atRest
  /\ sessionDecay twoKeys atRest
  /\ map remainingMoveTime
       [ updateCursor (typedFrame 1) atRest;
         updateCursor (typedFrame 2) (updateCursor (typedFrame 1) atRest);
         updateCursor (typingHost 1048 secondPos secondRect)
           (updateCursor (typedFrame 2) (updateCursor (typedFrame 1) atRest)) ]
     = [ 64; 48; 64 ].
Proof.
  split; [ vm_compute; discriminate | ].
  split; [ exact twoKeys_session | ].
  split; [ | vm_compute; reflexivity ].
  apply (typingSession_decay twoKeys atRest).
  - vm_compute. discriminate.
  - exact twoKeys_session.
Defined.

(** C3, as stated, fails: on a frame without move whose frame time is
    -16 ms (the clock stepped back), the remaining time rises from 64 ms
    to 80 ms. *)
Lemma typingSession_clock_back :
  caretSample (typingHost 1000 typedPos typedRect) = Some (typedPos, typedRect)
  /\ unmoved midMove typedPos
  /\ remainingMoveTime midMove == 64
  /\ remainingMoveTime (updateCursor (typingHost 1000 typedPos typedRect) midMove) == 80
  /\ ~ remainingMoveTime (updateCursor (typingHost 1000 typedPos typedRect) midMove)
       <= remainingMoveTime midMove.
Proof.
  split; [ reflexivity | ].
  split; [ eexists; split; [ reflexivity | split; vm_compute; reflexivity ] | ].
  split; [ vm_compute; reflexivity | ].
  split; [ vm_compute; reflexivity | ].
  intros H. vm_compute in H. apply H. reflexivity.
Qed.

(** ** Blink engine *)

Lemma trunc_nonneg (q : Q) : 0 <= q -> JS.trunc q = Qfloor q.
Proof.
  destruct q as [n d]. unfold Qle, JS.trunc, Qfloor. simpl.
  intros H. apply Z.quot_div_nonneg; lia.
Qed.

Lemma Qfloor_unique (q : Q) (k : Z) :
  inject_Z k <= q -> q < inject_Z k + 1 -> Qfloor q = k.
Proof.
  intros Hl Hu.
  pose proof (Qfloor_le q) as Fl.
  pose proof (Qlt_floor q) as Fu.
  rewrite inject_Z_plus in Fu.
  assert (A : inject_Z (Qfloor q) < inject_Z (k + 1)).
  { rewrite inject_Z_plus. change (inject_Z 1) with 1. lra. }
  assert (B : inject_Z k < inject_Z (Qfloor q + 1)).
  { rewrite inject_Z_plus. change (inject_Z 1) with 1 in *. lra. }
  rewrite <- Zlt_Qlt in A, B. lia.
Qed.

(** Inside the period of rank [k] the quotient has [k] whole periods. *)
Lemma whole_periods (e period : Q) (k : Z) :
  0 < period ->
  inject_Z k * period <= e -> e < (inject_Z k + 1) * period ->
  Qfloor (e / period) = k.
Proof.
  intros Hp Hl Hu. apply Qfloor_unique.
  - apply Qle_shift_div_l; assumption.
  - apply Qlt_shift_div_r; assumption.
Qed.

(** For a time that is not negative and a positive period the remainder
    operator of the code is the remainder of arithmetic. *)
Lemma rem_floorMod (e period : Q) :
  0 <= e -> 0 < period -> JS.rem e period = Some (floorMod e period).
Proof.
  intros He Hp. unfold JS.rem, floorMod.
  assert (N : Qeq_bool period 0 = false).
  { apply (strict_eq_false period 0). lra. }
  rewrite N, trunc_nonneg; [ reflexivity | ].
  apply quotient_nonneg; assumption.
Qed.

Lemma floorMod_range (e period : Q) :
  0 < period -> 0 <= floorMod e period < period.
Proof.
  intros Hp. unfold floorMod.
  pose proof (Qfloor_le (e / period)) as Fl.
  pose proof (Qlt_floor (e / period)) as Fu.
  rewrite inject_Z_plus in Fu. change (inject_Z 1) with 1 in Fu.
  set (n := inject_Z (Qfloor (e / period))) in *.
  assert (E : e == (e / period) * period) by (field; lra).
  split.
  - assert (H : n * period <= (e / period) * period)
      by (apply Qmult_le_compat_r; lra).
    lra.
  - assert (H : (e / period) * period < (n + 1) * period)
      by (apply Qmult_lt_compat_r; lra).
    lra.
Qed.

(** The opacity of a frame without move, once the delay is over. *)
Lemma blinkCursor_wave (now : Q) (p : Plugin) :
  let elapsed := now - blinkStartTime p - blinkDelay (settings p) * 1000 in
  let period := blinkSpeed (settings p) * 1000 in
  0 <= elapsed -> 0 < period ->
  fst (blinkCursor now false p)
    = if JS.lt (floorMod elapsed period) (period / 2) then 1 else 0.
Proof.
  intros elapsed period He Hp. unfold blinkCursor.
  fold elapsed. fold period.
  assert (L : JS.lt elapsed 0 = false) by (apply lt_false; exact He).
  rewrite L, rem_floorMod; trivial.
  simpl. destruct (JS.lt (floorMod elapsed period) (period / 2)); reflexivity.
Qed.

(** C4.  The opacity [blinkCursor] returns.  It is 0 or 1.  It is 1 when the
    position changed.  Otherwise, with elapsed = now - blinkStartTime -
    blinkDelay * 1000 and period = blinkSpeed * 1000: it is 1 when elapsed is
    negative; it is 1 when the remainder of elapsed by the period is below
    half the period and 0 when it is not; for a positive period that
    remainder is elapsed modulo the period, so the opacity is 1 on the first
    half of every period and 0 on the second half. *)
Theorem blinkCursor_opacity (now : Q) (changed : bool) (p : Plugin) :
  let elapsed := now - blinkStartTime p - blinkDelay (settings p) * 1000 in
  let period := blinkSpeed (settings p) * 1000 in
  let opacity := fst (blinkCursor now changed p) in
  (opacity = 0 \/ opacity = 1)
  /\ (changed = true -> opacity = 1)
  /\ (changed = false -> elapsed < 0 -> opacity = 1)
  /\ (changed = false -> 0 <= elapsed ->
        opacity = if JS.lt_nan (JS.rem elapsed period) (period / 2) then 1 else 0)
  /\ (changed = false -> 0 <= elapsed -> 0 < period ->
        (floorMod elapsed period < period / 2 -> opacity = 1)
        /\ (period / 2 <= floorMod elapsed period -> opacity = 0))
  /\ (changed = false -> 0 < period -> forall k : Z, (0 <= k)%Z ->
        (inject_Z k * period <= elapsed
           /\ elapsed < inject_Z k * period + period / 2 -> opacity = 1)
        /\ (inject_Z k * period + period / 2 <= elapsed
           /\ elapsed < (inject_Z k + 1) * period -> opacity = 0)).
Proof.
  intros elapsed period opacity.
  split; [ | split; [ | split; [ | split; [ | split ] ] ] ].
  - subst opacity. unfold blinkCursor, resetCursor.
    destruct changed; simpl; [ right; reflexivity | ].
    destruct (JS.lt _ 0); simpl; [ right; reflexivity | ].
    destruct (JS.lt_nan _ _); simpl; [ right | left ]; reflexivity.
  - intros ->. reflexivity.
  - intros -> He. subst opacity. unfold blinkCursor. fold elapsed.
    apply lt_true in He. rewrite He. reflexivity.
  - intros -> He. subst opacity. unfold blinkCursor. fold elapsed. fold period.
    apply lt_false in He. rewrite He.
    destruct (JS.lt_nan _ _); reflexivity.
  - intros -> He Hp. subst opacity.
    rewrite (blinkCursor_wave now p He Hp). fold elapsed. fold period.
    split; intros H.
    + apply lt_true in H. rewrite H. reflexivity.
    + apply lt_false in H. rewrite H. reflexivity.
  - intros -> Hp k Hk.
    assert (K : 0 <= inject_Z k) by (rewrite Zle_Qle in Hk; exact Hk).
    assert (Half : period / 2 == period * (1 # 2)) by field.
    assert (KP : 0 <= inject_Z k * period) by (apply Qmult_le_0_compat; lra).
    assert (M : forall e, inject_Z k * period <= e -> e < (inject_Z k + 1) * period ->
                floorMod e period == e - inject_Z k * period).
    { intros e Hl Hu. unfold floorMod.
      rewrite (whole_periods e period k Hp Hl Hu). ring. }
    split; intros [Hl Hu].
    + assert (He : 0 <= elapsed) by lra.
      subst opacity. rewrite (blinkCursor_wave now p He Hp). fold elapsed. fold period.
      assert (L : JS.lt (floorMod elapsed period) (period / 2) = true).
      { apply lt_true. rewrite M; lra. }
      rewrite L. reflexivity.
    + assert (He : 0 <= elapsed) by lra.
      subst opacity. rewrite (blinkCursor_wave now p He Hp). fold elapsed. fold period.
      assert (L : JS.lt (floorMod elapsed period) (period / 2) = false).
      { apply lt_false. rewrite M; lra. }
      rewrite L. reflexivity.
Qed.

(** A period of one second: opacity 1 from 0 to 499 ms, 0 from 500 to
    999 ms, 1 again at 1000 ms and in the third period at 2499 ms; 1 on a
    frame with a move; 1 during a delay of half a second. *)
Lemma blinkCursor_opacity_witness :
  fst (blinkCursor 0 false blinking) = 1
  /\ fst (blinkCursor 499 false blinking) = 1
  /\ fst (blinkCursor 500 false blinking) = 0
  /\ fst (blinkCursor 999 false blinking) = 0
  /\ fst (blinkCursor 1000 false blinking) = 1
  /\ fst (blinkCursor 2499 false blinking) = 1
  /\ fst (blinkCursor 700 true blinking) = 1
  /\ fst (blinkCursor 499 false lingering) = 1.
Proof.
  assert (P : 0 < blinkSpeed (settings blinking) * 1000) by (vm_compute; reflexivity).
  split.
  { destruct (blinkCursor_opacity 0 false blinking) as [_ [_ [_ [_ [_ W]]]]].
    apply (W eq_refl P 0%Z); [ lia | ]. vm_compute. split; [ discriminate | reflexivity ]. }
  split.
  { destruct (blinkCursor_opacity 499 false blinking) as [_ [_ [_ [_ [_ W]]]]].
    apply (W eq_refl P 0%Z); [ lia | ]. vm_compute. split; [ discriminate | reflexivity ]. }
  split.
  { destruct (blinkCursor_opacity 500 false blinking) as [_ [_ [_ [_ [_ W]]]]].
    apply (W eq_refl P 0%Z); [ lia | ]. vm_compute. split; [ discriminate | reflexivity ]. }
  split.
  { destruct (blinkCursor_opacity 999 false blinking) as [_ [_ [_ [_ [_ W]]]]].
    apply (W eq_refl P 0%Z); [ lia | ]. vm_compute. split; [ discriminate | reflexivity ]. }
  split.
  { destruct (blinkCursor_opacity 1000 false blinking) as [_ [_ [_ [_ [_ W]]]]].
    apply (W eq_refl P 1%Z); [ lia | ]. vm_compute. split; [ discriminate | reflexivity ]. }
  split.
  { destruct (blinkCursor_opacity 2499 false blinking) as [_ [_ [_ [_ [_ W]]]]].
    apply (W eq_refl P 2%Z); [ lia | ]. vm_compute. split; [ discriminate | reflexivity ]. }
  split.
  { destruct (blinkCursor_opacity 700 true blinking) as [_ [W _]].
    apply W. reflexivity. }
  destruct (blinkCursor_opacity 499 false lingering) as [_ [_ [W _]]].
  apply W; [ reflexivity | vm_compute; reflexivity ].
Defined.

(** ** What a run of the frame callback leaves alone *)

Lemma updateCursor_blinkStartTime (h : Host) (p : Plugin) :
  blinkStartTime (updateCursor h p) = blinkStartTime p.
Proof.
  destruct (caretSample h) as [[pos rect]|] eqn:S.
  - apply (updateCursor_focused h p pos rect S).
  - rewrite (updateCursor_early h p S). destruct (caretRect h); reflexivity.
Qed.

Lemma updateCursor_settings (h : Host) (p : Plugin) :
  settings (updateCursor h p) = settings p.
Proof.
  destruct (caretSample h) as [[pos rect]|] eqn:S.
  - apply (updateCursor_focused h p pos rect S).
  - rewrite (updateCursor_early h p S). destruct (caretRect h); reflexivity.
Qed.

Lemma updateCursor_cursor_color (h : Host) (p : Plugin) :
  cursor_color (cursorElement (updateCursor h p)) = cursor_color (cursorElement p).
Proof.
  destruct (caretSample h) as [[pos rect]|] eqn:S.
  - destruct (updateCursor_focused h p pos rect S)
      as [_ [_ [_ [_ [_ [_ [_ [_ E]]]]]]]].
    rewrite E. reflexivity.
  - rewrite (updateCursor_early h p S). destruct (caretRect h); reflexivity.
Qed.

(** After an animation frame the blink start is the time of the frame when
    a reset was pending, and what it was when none was. *)
Lemma callbacks_blinkStartTime (h : Host) (l : list FrameCallback) (p : Plugin) :
  blinkStartTime (fold_left (fun q cb => runCallback h cb q) l p)
    = if existsb isReset l then nowReset h else blinkStartTime p.
Proof.
  revert p. induction l as [| cb l IH]; intros p; [ reflexivity | ].
  simpl. rewrite IH. destruct cb; simpl.
  - destruct (existsb isReset l); reflexivity.
  - rewrite updateCursor_blinkStartTime. reflexivity.
Qed.

(** C9.  A call of [blinkCursor] with a changed position returns 1, leaves
    [blinkStartTime] as it was and leaves the reset pending; so does the
    whole run of [updateCursor].  The pending reset runs in the next
    animation frame, and [blinkStartTime] is then the time of that frame. *)
Theorem blinkCursor_reset_deferred (now : Q) (h : Host) (p : Plugin) :
  fst (blinkCursor now true p) = 1
  /\ blinkStartTime (snd (blinkCursor now true p)) = blinkStartTime p
  /\ pending (snd (blinkCursor now true p)) = pending p ++ [ResetBlink]
  /\ blinkStartTime (updateCursor h p) = blinkStartTime p
  /\ blinkStartTime (runCallback h ResetBlink p) = nowReset h
  /\ blinkStartTime (animationFrame h (snd (blinkCursor now true p))) = nowReset h.
Proof.
  split; [ reflexivity | ].
  split; [ reflexivity | ].
  split; [ reflexivity | ].
  split; [ apply updateCursor_blinkStartTime | ].
  split; [ reflexivity | ].
  unfold animationFrame. rewrite callbacks_blinkStartTime.
  simpl. rewrite existsb_app. simpl. rewrite orb_true_r. reflexivity.
Qed.

(** The keystroke on the frame loop: the frame that sees the move keeps the
    blink start and leaves the reset and the next run pending; the frame
    after it sets the blink start to its own time. *)
Example keystroke_blink_reset :
  blinkStartTime atRest = 0
  /\ blinkStartTime (animationFrame (typedFrame 1) atRest) = 0
  /\ pending (animationFrame (typedFrame 1) atRest) = [ResetBlink; UpdateCursor]
  /\ blinkStartTime (animationFrame (typedFrame 2) (animationFrame (typedFrame 1) atRest))
     == 1032.
Proof.
  split; [ reflexivity | ].
  split; [ vm_compute; reflexivity | ].
  split; [ vm_compute; reflexivity | ].
  vm_compute. reflexivity.
Qed.

(** ** What a run of the frame callback records *)




(** ** Overlay colour at start *)

(** C10.  Whatever is stored, [onload] leaves the overlay with the colour of
    the theme, black on a light theme and white on a dark one; the stored
    [cursorColor] reaches the settings and not the overlay. *)
Theorem onload_cursor_colour (constructed : Q) (data : option StoredSettings) (h : Host) :
  cursor_color (cursorElement (onload constructed data h)) = Some (themeColour h)
  /\ (themeColour h = "#000000"%string \/ themeColour h = "#ffffff"%string)
  /\ (classList_contains (bodyClassList h) "theme-dark" = true ->
      themeColour h = "#ffffff"%string)
  /\ (classList_contains (bodyClassList h) "theme-dark" = false ->
      themeColour h = "#000000"%string)
  /\ settings (onload constructed data h) = loadSettings data
  /\ (forall (p : Plugin) (c : option string),
        cursor_color (cursorElement (changeCursorColour h None p))
        = cursor_color (cursorElement
            (changeCursorColour h None
               (mkPlugin (mkSettings (blinkSpeed (settings p)) (blinkDelay (settings p))
                            (characterMovementTime (settings p))
                            (cursorWidth (settings p)) c)
                         (cursorElement p) (prevCursorCoords p) (prevCursorPos p)
                         (prevIconCoords p) (prevFrameTime p) (blinkStartTime p)
                         (remainingMoveTime p) (pending p))))).
Proof.
  split.
  { unfold onload. rewrite updateCursor_cursor_color.
    unfold themeColour. simpl.
    destruct (classList_contains (bodyClassList h) "theme-dark"); reflexivity. }
  split.
  { unfold themeColour. destruct (classList_contains _ _); [ right | left ]; reflexivity. }
  split.
  { intros E. unfold themeColour. rewrite E. reflexivity. }
  split.
  { intros E. unfold themeColour. rewrite E. reflexivity. }
  split.
  { unfold onload. rewrite updateCursor_settings. reflexivity. }
  intros p c. reflexivity.
Qed.

(** A stored red cursor: the settings hold it, the overlay is black on the
    light theme and white on the dark one. *)
Lemma onload_cursor_colour_witness :
  cursorColor (settings (onload 0 (Some (storedColour "#ff0000")) (lightHost 5)))
    = Some "#ff0000"%string
  /\ cursor_color (cursorElement (onload 0 (Some (storedColour "#ff0000")) (lightHost 5)))
    = Some "#000000"%string
  /\ cursor_color (cursorElement
       (onload 0 (Some (storedColour "#ff0000")) (typedFrame 1)))
    = Some "#ffffff"%string.
Proof.
  destruct (onload_cursor_colour 0 (Some (storedColour "#ff0000")) (lightHost 5))
    as [C [_ [_ [L [S _]]]]].
  destruct (onload_cursor_colour 0 (Some (storedColour "#ff0000")) (typedFrame 1))
    as [C' [_ [D _]]].
  split; [ rewrite S; reflexivity | ].
  split; [ rewrite C, (L eq_refl); reflexivity | ].
  rewrite C', (D eq_refl). reflexivity.
Defined.

(** ** Settings *)

(** C7, as the code has it.  With nothing stored the settings are the
    defaults: blinkSpeed 1.2, blinkDelay 0, characterMovementTime 80,
    cursorWidth 1 and cursorColor [#ffffff]; with a stored object, every key
    it lacks has its default and every key it has keeps the stored value. *)
Theorem loadSettings_defaults (s : StoredSettings) :
  loadSettings None = mkSettings (12 # 10) 0 80 1 (Some "#ffffff"%string)
  /\ loadSettings (Some (mkStored None None None None None)) = loadSettings None
  /\ blinkSpeed (loadSettings (Some s))
     = match stored_blinkSpeed s with Some v => v | None => 12 # 10 end
  /\ blinkDelay (loadSettings (Some s))
     = match stored_blinkDelay s with Some v => v | None => 0 end
  /\ characterMovementTime (loadSettings (Some s))
     = match stored_characterMovementTime s with Some v => v | None => 80 end
  /\ cursorWidth (loadSettings (Some s))
     = match stored_cursorWidth s with Some v => v | None => 1 end
  /\ cursorColor (loadSettings (Some s))
     = match stored_cursorColor s with
       | Some v => v
       | None => Some "#ffffff"%string
       end.
Proof.
  repeat split.
Qed.

(** C7, as stated, fails: with nothing stored, and with a stored object that
    lacks the key, [cursorColor] is [#ffffff], not absent. *)
Lemma loadSettings_cursorColor_not_absent :
  cursorColor (loadSettings None) = Some "#ffffff"%string
  /\ cursorColor (loadSettings None) <> None
  /\ cursorColor (loadSettings (Some (mkStored (Some 2) None None None None))) <> None.
Proof.
  split; [ reflexivity | ].
  split; discriminate.
Qed.

(** ** The keystroke scenario *)

(** C6.  With a configured move time of 80 ms and a frame every 16 ms, one
    smooth column step that moves the caret 10 px to the right, from
    (100, 50) to (110, 50): the five frames compute the fractions 1/5, 1/4,
    1/3, 1/2 and 1; the icon is drawn at x = 102, 104, 106, 108 and 110 and
    stays at y = 50; at the fifth frame, and at none before, the icon is at
    the caret's x, and no move time remains. *)
Theorem keystroke_fractions :
  characterMovementTime (settings atRest) = 80
  /\ smoothStep atRest typedPos (rectCoords typedRect)
  /\ numbers (frameFractions keystroke atRest) [1 # 5; 1 # 4; 1 # 3; 1 # 2; 1]
  /\ numbers (map (fun p => cursor_x1 (cursorElement p)) (frames keystroke atRest))
             [102; 104; 106; 108; 110]
  /\ numbers (map (fun p => cursor_y1 (cursorElement p)) (frames keystroke atRest))
             [50; 50; 50; 50; 50]
  /\ numbers (map (fun p => option_map left (prevIconCoords p)) (frames keystroke atRest))
             [102; 104; 106; 108; 110]
  /\ numbers (map (fun p => Some (left (prevCursorCoords p))) (frames keystroke atRest))
             [110; 110; 110; 110; 110]
  /\ numbers (map (fun p => Some (remainingMoveTime p)) (frames keystroke atRest))
             [64; 48; 32; 16; 0].
Proof.
  split; [ reflexivity | ].
  split; [ eexists; split; [ reflexivity | repeat split; vm_compute; reflexivity ] | ].
  unfold numbers.
  repeat split;
    vm_compute;
    repeat (constructor; [ eexists; split; [ reflexivity | reflexivity ] | ]);
    constructor.
Qed.

(** ** The builtins on sample values *)

Example rem_samples :
  JS.rem 1700 1200 = Some 500
  /\ JS.rem (-7) 3 = Some (-1)
  /\ JS.rem 7 (-3) = Some 1
  /\ JS.rem 7 0 = None
  /\ JS.lt_nan (JS.rem 7 0) (0 / 2) = false.
Proof. repeat split. Qed.

Example includes_samples :
  JS.includes "cm-editor cm-focused" "cm-focused" = true
  /\ JS.includes "cm-editor" "cm-focused" = false
  /\ JS.includes "" "cm-focused" = false.
Proof. repeat split. Qed.

(** * Further properties of the frame loop *)

(** ** The queue of frame callbacks *)

(** What a run of [updateCursor] adds to the queue: at most one blink reset,
    then the next run. *)
Lemma updateCursor_pending (h : Host) (p : Plugin) :
  exists l, pending (updateCursor h p) = pending p ++ l ++ [UpdateCursor]
            /\ (l = [] \/ l = [ResetBlink]).
Proof.
  destruct (caretSample h) as [[pos rect]|] eqn:S.
  - destruct (updateCursor_focused h p pos rect S)
      as [_ [_ [_ [_ [_ [_ [_ [P _]]]]]]]].
    exists (if coordinatesChanged p (rectCoords rect) then [ResetBlink] else []).
    split; [ exact P | ].
    destruct (coordinatesChanged p (rectCoords rect)); [ right | left ]; reflexivity.
  - exists []. split; [ | left; reflexivity ].
    rewrite (updateCursor_early h p S). destruct (caretRect h); reflexivity.
Qed.

Lemma countUpdates_app (a b : list FrameCallback) :
  countUpdates (a ++ b) = (countUpdates a + countUpdates b)%nat.
Proof. unfold countUpdates. rewrite filter_app, length_app. reflexivity. Qed.

Lemma countResets_app (a b : list FrameCallback) :
  countResets (a ++ b) = (countResets a + countResets b)%nat.
Proof. unfold countResets. rewrite filter_app, length_app. reflexivity. Qed.

(** What a run adds to the queue when the DOM may interrupt it: nothing
    when it throws; else at most one blink reset, then the next run. *)
Lemma updateCursorDOM_pending (nodeLength : Node -> Z) (h : Host) (p : Plugin) :
  exists l,
    pending (updateCursorDOM nodeLength h p) = pending p ++ l
    /\ (countResets l <= 1)%nat
    /\ countUpdates l = (if rangeThrows nodeLength h then 0 else 1)%nat.
Proof.
  unfold updateCursorDOM.
  destruct (rangeThrows nodeLength h).
  - exists []. simpl. rewrite app_nil_r.
    split; [ reflexivity | split; [ cbn; lia | reflexivity ] ].
  - destruct (updateCursor_pending h p) as [a [E A]].
    exists (a ++ [UpdateCursor]). split; [ exact E | ].
    destruct A as [-> | ->]; split; cbn; lia.
Qed.

(** Running a list of callbacks: every run of [updateCursor] in the list
    registers one run, or none when the host makes it throw, and at most
    one reset. *)
Lemma callbacksDOM_pending (nodeLength : Node -> Z) (h : Host)
    (l : list FrameCallback) (p : Plugin) :
  countUpdates (pending (fold_left (fun q cb => runCallbackDOM nodeLength h cb q) l p))
    = (countUpdates (pending p)
       + (if rangeThrows nodeLength h then 0 else countUpdates l))%nat
  /\ (countResets (pending (fold_left (fun q cb => runCallbackDOM nodeLength h cb q) l p))
      <= countResets (pending p) + countUpdates l)%nat.
Proof.
  revert p. induction l as [| cb l IH]; intros p.
  - simpl. change (countUpdates []) with 0%nat.
    destruct (rangeThrows nodeLength h); lia.
  - simpl. destruct (IH (runCallbackDOM nodeLength h cb p)) as [U R].
    rewrite U. destruct cb.
    + change (countUpdates (ResetBlink :: l)) with (countUpdates l).
      simpl in *. lia.
    + change (countUpdates (UpdateCursor :: l)) with (S (countUpdates l)).
      simpl in *.
      destruct (updateCursorDOM_pending nodeLength h p) as [a [E [A1 A2]]].
      rewrite E in *. rewrite !countUpdates_app. rewrite !countResets_app in R.
      rewrite A2. destruct (rangeThrows nodeLength h); lia.
Qed.

Lemma animationFrameDOM_pending (nodeLength : Node -> Z) (h : Host) (p : Plugin) :
  countUpdates (pending (animationFrameDOM nodeLength h p))
    = (if rangeThrows nodeLength h then 0 else countUpdates (pending p))%nat
  /\ (countResets (pending (animationFrameDOM nodeLength h p))
      <= countUpdates (pending p))%nat.
Proof.
  unfold animationFrameDOM.
  destruct (callbacksDOM_pending nodeLength h (pending p) (take_pending p)) as [U R].
  simpl in U, R. split; [ exact U | exact R ].
Qed.

Lemma animateDOM_pending (nodeLength : Node -> Z) (hs : list Host) (p : Plugin) :
  countUpdates (pending (animateDOM nodeLength hs p))
    = (if existsb (rangeThrows nodeLength) hs then 0 else countUpdates (pending p))%nat.
Proof.
  revert p. induction hs as [| h rest IH]; intros p; [ reflexivity | ].
  change (animateDOM nodeLength (h :: rest) p)
    with (animateDOM nodeLength rest (animationFrameDOM nodeLength h p)).
  rewrite IH. destruct (animationFrameDOM_pending nodeLength h p) as [U _].
  rewrite U. simpl.
  destruct (rangeThrows nodeLength h); destruct (existsb _ rest); reflexivity.
Qed.

Lemma onloadDOM_pending (nodeLength : Node -> Z) (constructed : Q)
    (data : option StoredSettings) (h : Host) :
  countUpdates (pending (onloadDOM nodeLength constructed data h))
    = (if rangeThrows nodeLength h then 0 else 1)%nat
  /\ (countResets (pending (onloadDOM nodeLength constructed data h)) <= 2)%nat.
Proof.
  unfold onloadDOM.
  destruct (updateCursorDOM_pending nodeLength h
              (requestAnimationFrame ResetBlink
                 (changeCursorColour h None (loaded constructed data))))
    as [a [E [A1 A2]]].
  rewrite E. rewrite countUpdates_app, countResets_app, A2.
  split; cbn; lia.
Qed.

(** Where no host makes a run throw, the interrupted loop is the loop. *)
Lemma animationFrameDOM_quiet (nodeLength : Node -> Z) (h : Host) (p : Plugin) :
  rangeThrows nodeLength h = false ->
  animationFrameDOM nodeLength h p = animationFrame h p.
Proof.
  intros Q. unfold animationFrameDOM, animationFrame.
  generalize (take_pending p). induction (pending p) as [| cb l IH]; intros q.
  - reflexivity.
  - simpl. rewrite IH. destruct cb; [ reflexivity | ].
    simpl. unfold updateCursorDOM. rewrite Q. reflexivity.
Qed.

Lemma animateDOM_quiet (nodeLength : Node -> Z) (hs : list Host) (p : Plugin) :
  existsb (rangeThrows nodeLength) hs = false ->
  animateDOM nodeLength hs p = animate hs p.
Proof.
  revert p. induction hs as [| h rest IH]; intros p Q; [ reflexivity | ].
  simpl in Q. apply orb_false_iff in Q. destruct Q as [Q1 Q2].
  change (animateDOM nodeLength (h :: rest) p)
    with (animateDOM nodeLength rest (animationFrameDOM nodeLength h p)).
  rewrite (animationFrameDOM_quiet nodeLength h p Q1).
  apply (IH _ Q2).
Qed.

(** X1.  The frame loop from [onload] on, the exception of the range calls
    included.  As long as no run of [updateCursor] throws at lines 125 to
    127, exactly one run is pending after [onload] and after every
    animation frame, whatever the hosts show: the loop neither stops nor
    doubles.  A run that throws registers nothing, and from then on no run
    is pending: the loop has stopped for good.  At most two blink resets are
    pending after [onload], at most one after a frame. *)
Theorem frame_loop_one_pending (nodeLength : Node -> Z) (constructed : Q)
    (data : option StoredSettings) (h : Host) (hs : list Host) :
  let p := animateDOM nodeLength hs (onloadDOM nodeLength constructed data h) in
  countUpdates (pending p)
    = (if existsb (rangeThrows nodeLength) (h :: hs) then 0 else 1)%nat
  /\ (countResets (pending p) <= match hs with [] => 2 | _ :: _ => 1 end)%nat
  /\ (existsb (rangeThrows nodeLength) (h :: hs) = false ->
      p = animate hs (onload constructed data h)).
Proof.
  intros p. subst p.
  destruct (onloadDOM_pending nodeLength constructed data h) as [U0 R0].
  split; [ | split ].
  - rewrite animateDOM_pending, U0. simpl.
    destruct (rangeThrows nodeLength h); destruct (existsb _ hs); reflexivity.
  - destruct hs as [| h1 rest] using rev_ind; [ exact R0 | ].
    unfold animateDOM. rewrite fold_left_app. simpl.
    fold (animateDOM nodeLength rest (onloadDOM nodeLength constructed data h)).
    destruct (animationFrameDOM_pending nodeLength h1
                (animateDOM nodeLength rest (onloadDOM nodeLength constructed data h)))
      as [_ R1].
    rewrite animateDOM_pending, U0 in R1.
    assert (B : (countResets
                   (pending
                      (animationFrameDOM nodeLength h1
                         (animateDOM nodeLength rest
                            (onloadDOM nodeLength constructed data h)))) <= 1)%nat).
    { destruct (existsb _ rest); destruct (rangeThrows nodeLength h); lia. }
    destruct (rest ++ [h1]) eqn:L; [ destruct rest; discriminate L | exact B ].
  - intros Q. simpl in Q. apply orb_false_iff in Q. destruct Q as [Q1 Q2].
    rewrite (animateDOM_quiet nodeLength hs _ Q2).
    unfold onloadDOM, onload, updateCursorDOM. rewrite Q1. reflexivity.
Qed.

(** The keystroke frames on nodes of twelve units: one run pending after
    the fifth frame, and the same plugin as without exceptions.  A caret at
    offset 0 of an empty node in the third frame: one run was pending before
    it, none is after it, nor after the frames that follow. *)
Lemma frame_loop_one_pending_witness :
  countUpdates (pending (animateDOM twelveLong keystroke
                           (onloadDOM twelveLong 990 None (typedFrame 0)))) = 1%nat
  /\ animateDOM twelveLong keystroke (onloadDOM twelveLong 990 None (typedFrame 0))
     = animate keystroke (onload 990 None (typedFrame 0))
  /\ countUpdates
       (pending (animateDOM emptyWhenFlat [ typedFrame 1; typedFrame 2 ]
                   (onloadDOM emptyWhenFlat 990 None (typedFrame 0)))) = 1%nat
  /\ countUpdates
       (pending (animateDOM emptyWhenFlat
                   [ typedFrame 1; typedFrame 2;
                     lineStartHost 1048 {| line := 4; ch := 0 |} flatRect;
                     typedFrame 4; typedFrame 5 ]
                   (onloadDOM emptyWhenFlat 990 None (typedFrame 0)))) = 0%nat.
Proof.
  destruct (frame_loop_one_pending twelveLong 990 None (typedFrame 0) keystroke)
    as [U [_ E]].
  destruct (frame_loop_one_pending emptyWhenFlat 990 None (typedFrame 0)
              [ typedFrame 1; typedFrame 2 ])
    as [U1 _].
  destruct (frame_loop_one_pending emptyWhenFlat 990 None (typedFrame 0)
              [ typedFrame 1; typedFrame 2;
                lineStartHost 1048 {| line := 4; ch := 0 |} flatRect;
                typedFrame 4; typedFrame 5 ])
    as [U2 _].
  split; [ exact U | ].
  split; [ exact (E eq_refl) | ].
  split; [ exact U1 | exact U2 ].
Defined.

(** ** Bounds of the remaining time *)

Lemma travel_remaining_bound (curr : option Position) (t : Q) (p : Plugin) :
  0 <= t ->
  remainingMoveTime (snd (travel curr t p)) <= Qmax 0 (remainingMoveTime p).
Proof.
  intros Ht. unfold travel, returnStatement.
  destruct (JS.le (remainingMoveTime p) 0); simpl; [ apply Q.le_max_l | ].
  destruct (JS.strict_eq _ 0); simpl; [ apply Q.le_max_l | ].
  apply Q.max_lub; [ apply Q.le_max_l | ].
  apply Qle_trans with (remainingMoveTime p); [ lra | apply Q.le_max_r ].
Qed.

(** The classification leaves 0, the configured time or what was left. *)
Lemma classify_remaining (prev curr : Position) (coords : Coordinates) (p : Plugin) :
  settings (classify prev curr coords p) = settings p
  /\ (remainingMoveTime (classify prev curr coords p) = 0
      \/ remainingMoveTime (classify prev curr coords p)
         = characterMovementTime (settings p)
      \/ remainingMoveTime (classify prev curr coords p) = remainingMoveTime p).
Proof.
  unfold classify.
  destruct (_ || _); [ split; [ | left ]; reflexivity | ].
  destruct (_ && _); [ | split; [ | right; right ]; reflexivity ].
  destruct (JS.strict_ne _ _); split; try reflexivity;
    [ left | right; left ]; reflexivity.
Qed.

Lemma handleSmoothTyping_within (p : Plugin) (curr : option Position)
    (coords : Coordinates) (t : Q) :
  0 <= t -> withinConfigured p ->
  remainingMoveTime (snd (handleSmoothTyping curr coords t p))
    <= Qmax 0 (characterMovementTime (settings p)).
Proof.
  intros Ht [Lo Hi]. unfold handleSmoothTyping.
  destruct curr as [c|]; [ | simpl; apply Q.le_max_l ].
  destruct (prevCursorPos p) as [prev|]; [ | simpl; apply Q.le_max_l ].
  eapply Qle_trans; [ apply travel_remaining_bound; exact Ht | ].
  destruct (classify_remaining prev c coords p) as [_ [E | [E | E]]]; rewrite E.
  - apply Q.max_lub; [ apply Q.le_max_l | apply Q.le_max_l ].
  - apply Qle_refl.
  - apply Q.max_lub; [ apply Q.le_max_l | exact Hi ].
Qed.

Lemma updateCursor_prevFrameTime (h : Host) (p : Plugin) :
  prevFrameTime (updateCursor h p) = nowFrame h.
Proof.
  destruct (caretSample h) as [[pos rect]|] eqn:S.
  - apply (updateCursor_focused h p pos rect S).
  - rewrite (updateCursor_early h p S). destruct (caretRect h); reflexivity.
Qed.

Lemma updateCursor_within (h : Host) (p : Plugin) :
  prevFrameTime p <= nowFrame h -> withinConfigured p ->
  withinConfigured (updateCursor h p).
Proof.
  intros Ht W. unfold withinConfigured.
  rewrite updateCursor_settings.
  split; [ apply updateCursor_remaining_nonneg; apply W | ].
  destruct (caretSample h) as [[pos rect]|] eqn:S.
  - destruct (updateCursor_focused h p pos rect S)
      as [_ [_ [_ [_ [_ [_ [R _]]]]]]].
    rewrite R. apply handleSmoothTyping_within; [ lra | exact W ].
  - rewrite (updateCursor_early h p S). destruct (caretRect h); apply W.
Qed.

Lemma callbacks_within (h : Host) (l : list FrameCallback) (p : Plugin) :
  prevFrameTime p <= nowFrame h -> withinConfigured p ->
  withinConfigured (fold_left (fun q cb => runCallback h cb q) l p)
  /\ prevFrameTime (fold_left (fun q cb => runCallback h cb q) l p) <= nowFrame h.
Proof.
  revert p. induction l as [| cb l IH]; intros p Ht W.
  - simpl. split; assumption.
  - simpl. apply IH; destruct cb; simpl.
    + exact Ht.
    + rewrite updateCursor_prevFrameTime. apply Qle_refl.
    + exact W.
    + apply updateCursor_within; assumption.
Qed.

(** X2.  While the clock does not go back, the remaining move time stays
    between 0 and the configured [characterMovementTime] (or at 0 when that
    is negative), frame after frame, whatever the caret does. *)
Theorem remaining_within_configured (hs : list Host) (p : Plugin) :
  withinConfigured p ->
  clockAdvances (prevFrameTime p) hs ->
  withinConfigured (animate hs p).
Proof.
  intros W C.
  assert (G : forall T, prevFrameTime p <= T -> clockAdvances T hs ->
              withinConfigured (animate hs p)).
  { clear C. revert p W. induction hs as [| h rest IH]; intros p W T HT C.
    - exact W.
    - destruct C as [C1 C2]. unfold animate. simpl.
      destruct (callbacks_within h (pending p) (take_pending p)) as [W1 T1].
      + simpl. lra.
      + exact W.
      + apply (IH (animationFrame h p) W1 (nowFrame h) T1 C2). }
  apply (G (prevFrameTime p)); [ apply Qle_refl | exact C ].
Qed.

Lemma remaining_within_configured_witness :
  withinConfigured atRest
  /\ clockAdvances (prevFrameTime atRest) keystroke
  /\ withinConfigured (animate keystroke atRest).
Proof.
  assert (W : withinConfigured atRest) by (split; vm_compute; discriminate).
  assert (C : clockAdvances (prevFrameTime atRest) keystroke)
    by (repeat split; vm_compute; discriminate).
  split; [ exact W | ].
  split; [ exact C | ].
  apply (remaining_within_configured keystroke atRest W C).
Defined.

(** ** Where the icon is drawn *)

Lemma iconCoords_snap (f : Q) (prev : option Coordinates) (c : Coordinates) :
  f == 0 -> iconCoords f prev c = c.
Proof.
  intros E. unfold iconCoords.
  apply strict_ne_false in E. rewrite E. reflexivity.
Qed.

Lemma iconCoords_move (f : Q) (a c : Coordinates) :
  ~ f == 0 ->
  iconCoords f (Some a) c =
    {| left := left a + f * (left c - left a);
       top := top a + f * (top c - top a) |}.
Proof.
  intros E. unfold iconCoords.
  apply strict_ne_true in E. rewrite E. reflexivity.
Qed.

Lemma iconCoords_none (f : Q) (c : Coordinates) : iconCoords f None c = c.
Proof. unfold iconCoords. destruct (JS.strict_ne f 0); reflexivity. Qed.

(** What the engine returns, in two cases: nothing to travel, or the
    clamped quotient over a positive time [r] left by the classification. *)
Lemma handleSmoothTyping_cases (p : Plugin) (curr : option Position)
    (coords : Coordinates) (t : Q) :
  let out := handleSmoothTyping curr coords t p in
  (fst out == 0 /\ remainingMoveTime (snd out) = 0)
  \/ (exists r, 0 < r /\ ~ t == 0
        /\ fst out = Qmin (t / r) 1
        /\ remainingMoveTime (snd out) = Qmax 0 (r - t)).
Proof.
  intros out. subst out. unfold handleSmoothTyping.
  destruct curr as [c|]; [ | left; simpl; split; reflexivity ].
  destruct (prevCursorPos p) as [prev|]; [ | left; simpl; split; reflexivity ].
  set (q := classify prev c coords p).
  destruct (Qlt_le_dec 0 (remainingMoveTime q)) as [Hr | Hr].
  - destruct (Qeq_dec t 0) as [Ht | Ht].
    + left. destruct (travel_stalled (Some c) t q Hr Ht) as [F S].
      split; [ exact F | rewrite S; reflexivity ].
    + right. exists (remainingMoveTime q).
      rewrite (travel_moving (Some c) t q Hr Ht).
      repeat split; assumption.
  - left. rewrite (travel_idle (Some c) t q Hr). split; reflexivity.
Qed.

(** X3.  A run of [updateCursor] that finds the caret and leaves no move
    time draws the icon on the caret, on both axes: a move that is over, or
    was cancelled, leaves no offset behind. *)
Theorem icon_on_caret_when_done (h : Host) (p : Plugin) (pos : Position)
    (rect : DOMRect) :
  caretSample h = Some (pos, rect) ->
  remainingMoveTime (updateCursor h p) == 0 ->
  exists icon,
    prevIconCoords (updateCursor h p) = Some icon
    /\ left icon == rect_left rect
    /\ top icon == rect_top rect
    /\ cursor_x1 (cursorElement (updateCursor h p)) = Some (left icon)
    /\ cursor_y1 (cursorElement (updateCursor h p)) = Some (top icon).
Proof.
  intros S Z.
  destruct (updateCursor_focused h p pos rect S)
    as [_ [_ [_ [I [_ [_ [R [_ E]]]]]]]].
  rewrite R in Z. rewrite I, E. eexists. split; [ reflexivity | ].
  cbn [render cursor_x1 cursor_y1].
  assert (G : left (iconCoords
                      (fst (handleSmoothTyping (Some pos) (rectCoords rect)
                              (nowFrame h - prevFrameTime p) p))
                      (prevIconCoords p) (rectCoords rect)) == rect_left rect
              /\ top (iconCoords
                      (fst (handleSmoothTyping (Some pos) (rectCoords rect)
                              (nowFrame h - prevFrameTime p) p))
                      (prevIconCoords p) (rectCoords rect)) == rect_top rect).
  { destruct (handleSmoothTyping_cases p (Some pos) (rectCoords rect)
                (nowFrame h - prevFrameTime p)) as [[F _] | [r [Hr [Ht [F M]]]]].
    - rewrite (iconCoords_snap _ _ _ F). split; reflexivity.
    - rewrite M in Z. rewrite F.
      set (t := nowFrame h - prevFrameTime p) in *.
      assert (Le : r <= t).
      { destruct (Q.max_spec 0 (r - t)) as [[A B] | [A B]]; rewrite B in Z; lra. }
      assert (One : Qmin (t / r) 1 == 1).
      { apply Q.min_r. apply Qle_shift_div_l; lra. }
      destruct (prevIconCoords p) as [a|];
        [ | rewrite iconCoords_none; split; reflexivity ].
      rewrite iconCoords_move; [ | rewrite One; discriminate ].
      simpl. rewrite One. split; ring. }
  destruct G as [G1 G2]. repeat split; assumption.
Qed.

(** The fifth frame of the keystroke, and a jump to another line in
    mid-move. *)
Lemma icon_on_caret_when_done_witness :
  (exists icon,
     prevIconCoords
       (updateCursor (typedFrame 5)
          (ticks [typedFrame 1; typedFrame 2; typedFrame 3; typedFrame 4] atRest))
     = Some icon
     /\ left icon == 110 /\ top icon == 50)
  /\ (exists icon,
     prevIconCoords
       (updateCursor (typingHost 1032 {| line := 7; ch := 0 |}
                        {| rect_left := 20; rect_top := 122; rect_height := 18 |})
          midMove) = Some icon
     /\ left icon == 20 /\ top icon == 122).
Proof.
  split.
  - destruct (icon_on_caret_when_done (typedFrame 5)
                (ticks [typedFrame 1; typedFrame 2; typedFrame 3; typedFrame 4] atRest)
                typedPos typedRect eq_refl)
      as [icon [I [L [T _]]]].
    + vm_compute. reflexivity.
    + exists icon. split; [ exact I | split; [ exact L | exact T ] ].
  - destruct (icon_on_caret_when_done
                (typingHost 1032 {| line := 7; ch := 0 |}
                   {| rect_left := 20; rect_top := 122; rect_height := 18 |})
                midMove {| line := 7; ch := 0 |}
                {| rect_left := 20; rect_top := 122; rect_height := 18 |} eq_refl)
      as [icon [I [L [T _]]]].
    + vm_compute. reflexivity.
    + exists icon. split; [ exact I | split; [ exact L | exact T ] ].
Defined.

Lemma handleSmoothTyping_fraction_bounds (p : Plugin) (curr : option Position)
    (coords : Coordinates) (t : Q) :
  0 <= t ->
  0 <= fst (handleSmoothTyping curr coords t p)
  /\ fst (handleSmoothTyping curr coords t p) <= 1.
Proof.
  intros Ht. unfold handleSmoothTyping.
  destruct curr as [c|]; [ | simpl; lra ].
  destruct (prevCursorPos p) as [prev|]; [ | simpl; lra ].
  apply travel_fraction_bounds; trivial.
Qed.

(** A step of a fraction between 0 and 1 from [a] towards [c] stays
    between [a] and [c]. *)
Lemma step_between (f a c : Q) :
  0 <= f -> f <= 1 ->
  Qmin a c <= a + f * (c - a) /\ a + f * (c - a) <= Qmax a c.
Proof.
  intros F0 F1.
  destruct (Qlt_le_dec c a) as [H | H].
  - assert (Mn : Qmin a c == c) by (apply Q.min_r; lra).
    assert (Mx : Qmax a c == a) by (apply Q.max_l; lra).
    rewrite Mn, Mx.
    assert (A : 0 <= f * (a - c)) by (apply Qmult_le_0_compat; lra).
    assert (B : 0 <= (1 - f) * (a - c)) by (apply Qmult_le_0_compat; lra).
    assert (E1 : f * (c - a) == - (f * (a - c))) by ring.
    assert (E2 : (1 - f) * (a - c) == (a - c) - f * (a - c)) by ring.
    split; lra.
  - assert (Mn : Qmin a c == a) by (apply Q.min_l; lra).
    assert (Mx : Qmax a c == c) by (apply Q.max_r; lra).
    rewrite Mn, Mx.
    assert (A : 0 <= f * (c - a)) by (apply Qmult_le_0_compat; lra).
    assert (B : 0 <= (1 - f) * (c - a)) by (apply Qmult_le_0_compat; lra).
    assert (E2 : (1 - f) * (c - a) == (c - a) - f * (c - a)) by ring.
    split; lra.
Qed.

(** X4.  While the clock does not go back, the icon never overshoots: a run
    of [updateCursor] that finds the caret draws the icon, on each axis,
    between where the icon was and where the caret is. *)
Theorem icon_never_overshoots (h : Host) (p : Plugin) (pos : Position)
    (rect : DOMRect) (was : Coordinates) :
  caretSample h = Some (pos, rect) ->
  prevIconCoords p = Some was ->
  prevFrameTime p <= nowFrame h ->
  exists icon,
    prevIconCoords (updateCursor h p) = Some icon
    /\ Qmin (left was) (rect_left rect) <= left icon
    /\ left icon <= Qmax (left was) (rect_left rect)
    /\ Qmin (top was) (rect_top rect) <= top icon
    /\ top icon <= Qmax (top was) (rect_top rect).
Proof.
  intros S W Ht.
  destruct (updateCursor_focused h p pos rect S) as [_ [_ [_ [I _]]]].
  rewrite I, W. eexists. split; [ reflexivity | ].
  set (f := fst (handleSmoothTyping (Some pos) (rectCoords rect)
                   (nowFrame h - prevFrameTime p) p)).
  assert (B : 0 <= f /\ f <= 1)
    by (apply handleSmoothTyping_fraction_bounds; lra).
  destruct (Qeq_dec f 0) as [Z | NZ].
  - rewrite (iconCoords_snap f _ _ Z). simpl.
    repeat split;
      first [ apply Q.le_min_r | apply Q.le_max_r ].
  - rewrite (iconCoords_move f was _ NZ). simpl.
    destruct B as [B0 B1].
    destruct (step_between f (left was) (rect_left rect) B0 B1) as [L1 L2].
    destruct (step_between f (top was) (rect_top rect) B0 B1) as [T1 T2].
    repeat split; assumption.
Qed.

Lemma icon_never_overshoots_witness :
  exists icon,
    prevIconCoords (updateCursor (typedFrame 1) atRest) = Some icon
    /\ Qmin 100 110 <= left icon
    /\ left icon <= Qmax 100 110
    /\ Qmin 50 50 <= top icon
    /\ top icon <= Qmax 50 50.
Proof.
  apply (icon_never_overshoots (typedFrame 1) atRest typedPos typedRect
           {| left := 100; top := 50 |}).
  - reflexivity.
  - reflexivity.
  - vm_compute. discriminate.
Defined.

(** X5.  The icon moves at constant speed.  When time [r] is left after the
    classification and the frame time is positive, the icon's distance to
    the caret shrinks, on each axis, in the proportion of the time left
    after the frame to [r]. *)
Theorem icon_distance_proportional (h : Host) (p : Plugin) (pos prev : Position)
    (rect : DOMRect) (was : Coordinates) :
  caretSample h = Some (pos, rect) ->
  prevCursorPos p = Some prev ->
  prevIconCoords p = Some was ->
  0 < remainingMoveTime (classify prev pos (rectCoords rect) p) ->
  0 < nowFrame h - prevFrameTime p ->
  let r := remainingMoveTime (classify prev pos (rectCoords rect) p) in
  exists icon,
    prevIconCoords (updateCursor h p) = Some icon
    /\ (rect_left rect - left icon) * r
       == (rect_left rect - left was) * remainingMoveTime (updateCursor h p)
    /\ (rect_top rect - top icon) * r
       == (rect_top rect - top was) * remainingMoveTime (updateCursor h p).
Proof.
  intros S P W Hr Ht r.
  destruct (updateCursor_focused h p pos rect S)
    as [_ [_ [_ [I [_ [_ [R _]]]]]]].
  rewrite I, R, W. eexists. split; [ reflexivity | ].
  set (t := nowFrame h - prevFrameTime p) in *.
  destruct (handleSmoothTyping_output p prev pos (rectCoords rect) t P) as [M _].
  assert (Tn : ~ t == 0) by lra.
  rewrite (M Hr Tn). cbn [fst snd]. fold r. change (0 < r) in Hr.
  change (remainingMoveTime
            (set_prevCursorPos (Some pos)
               (set_remainingMoveTime (Qmax 0 (r - t))
                  (classify prev pos (rectCoords rect) p))))
    with (Qmax 0 (r - t)).
  assert (Fp : 0 < t / r) by (apply quotient_pos; assumption).
  destruct (Qlt_le_dec t r) as [Lt | Ge].
  - assert (Mn : Qmin (t / r) 1 == t / r).
    { apply Q.min_l. apply Qle_shift_div_r; lra. }
    assert (Mx : Qmax 0 (r - t) == r - t) by (apply Q.max_r; lra).
    rewrite iconCoords_move; [ | rewrite Mn; lra ].
    simpl. rewrite Mn, Mx. split; field; lra.
  - assert (Mn : Qmin (t / r) 1 == 1).
    { apply Q.min_r. apply Qle_shift_div_l; lra. }
    assert (Mx : Qmax 0 (r - t) == 0) by (apply Q.max_l; lra).
    rewrite iconCoords_move; [ | rewrite Mn; discriminate ].
    simpl. rewrite Mn, Mx. split; ring.
Qed.

(** The second frame of the keystroke: 64 ms are left before it and 48 ms
    after, the icon goes from 8 px to 6 px behind the caret. *)
Lemma icon_distance_proportional_witness :
  exists icon,
    prevIconCoords (updateCursor (typedFrame 2) midMove) = Some icon
    /\ (110 - left icon) * 64 == (110 - 102) * 48
    /\ (110 - left icon) == 6.
Proof.
  destruct (icon_distance_proportional (typedFrame 2) midMove typedPos typedPos
              typedRect {| left := 8160 # 80; top := 4000 # 80 |})
    as [icon [I [L _]]].
  - reflexivity.
  - reflexivity.
  - vm_compute. reflexivity.
  - vm_compute. reflexivity.
  - vm_compute. reflexivity.
  - exists icon. split; [ exact I | ].
    assert (R : remainingMoveTime (updateCursor (typedFrame 2) midMove) == 48)
      by (vm_compute; reflexivity).
    assert (C : remainingMoveTime
                  (classify typedPos typedPos (rectCoords typedRect) midMove) == 64)
      by (vm_compute; reflexivity).
    rewrite R, C in L. simpl in L.
    assert (E : (8160 # 80) == 102) by reflexivity.
    rewrite E in L. split; [ exact L | lra ].
Defined.

(** ** A move measured on the clock *)

Lemma decay_twice (r a b x y : Q) :
  0 <= b -> x == Qmax 0 (r - a) -> y == Qmax 0 (x - b) ->
  y == Qmax 0 (r - (a + b)).
Proof.
  intros Hb Hx Hy.
  destruct (Q.max_spec 0 (r - a)) as [[A1 A2] | [A1 A2]];
    rewrite A2 in Hx;
    destruct (Q.max_spec 0 (x - b)) as [[B1 B2] | [B1 B2]];
    rewrite B2 in Hy;
    destruct (Q.max_spec 0 (r - (a + b))) as [[C1 C2] | [C1 C2]];
    rewrite C2; lra.
Qed.

Lemma restingSession_clock (hs : list Host) (p : Plugin) :
  restingSession hs p -> prevFrameTime p <= prevFrameTime (ticks hs p).
Proof.
  revert p. induction hs as [| h rest IH]; intros p H.
  - apply Qle_refl.
  - destruct H as [[pos [rect [_ [Ht _]]]] Rest].
    unfold ticks. simpl.
    apply Qle_trans with (prevFrameTime (updateCursor h p)).
    + rewrite updateCursor_prevFrameTime. lra.
    + apply (IH _ Rest).
Qed.

(** X6.  While the caret rests, a move in flight runs on the clock and not
    on the frame count: after any run of frames that find the caret where
    it was, the time left is what was left minus the clock time gone by
    since, or 0 when more has gone by, however the frames are spaced. *)
Theorem resting_move_runs_on_clock (hs : list Host) (p : Plugin) :
  0 <= remainingMoveTime p ->
  restingSession hs p ->
  remainingMoveTime (ticks hs p)
    == Qmax 0 (remainingMoveTime p - (prevFrameTime (ticks hs p) - prevFrameTime p)).
Proof.
  revert p. induction hs as [| h rest IH]; intros p Hr H.
  - unfold ticks. simpl. symmetry.
    assert (E : remainingMoveTime p - (prevFrameTime p - prevFrameTime p)
                == remainingMoveTime p) by ring.
    rewrite E. apply Q.max_r. exact Hr.
  - destruct H as [[pos [rect [S [Ht U]]]] Rest].
    pose proof (restingSession_clock rest _ Rest) as Clock.
    pose proof (IH (updateCursor h p)
                  (updateCursor_remaining_nonneg h p Hr) Rest) as Step.
    change (ticks (h :: rest) p) with (ticks rest (updateCursor h p)).
    rewrite updateCursor_prevFrameTime in Step, Clock.
    destruct (updateCursor_focused h p pos rect S)
      as [_ [_ [_ [_ [_ [_ [R _]]]]]]].
    pose proof (handleSmoothTyping_still p pos (rectCoords rect)
                  (nowFrame h - prevFrameTime p) U Hr Ht) as First.
    rewrite <- R in First.
    assert (E : prevFrameTime (ticks rest (updateCursor h p)) - prevFrameTime p
                == (nowFrame h - prevFrameTime p)
                   + (prevFrameTime (ticks rest (updateCursor h p)) - nowFrame h))
      by ring.
    rewrite E.
    apply (decay_twice _ _ _ (remainingMoveTime (updateCursor h p)));
      [ lra | exact First | exact Step ].
Qed.

(** After the keystroke frame, frames at 1020, 1050 and 1075 ms: 64 ms were
    left at 1016 ms, 5 ms are left at 1075 ms; one frame at 1200 ms leaves
    none. *)
Lemma resting_move_runs_on_clock_witness :
  remainingMoveTime
    (ticks [ typingHost 1020 typedPos typedRect;
             typingHost 1050 typedPos typedRect;
             typingHost 1075 typedPos typedRect ] midMove) == 5
  /\ remainingMoveTime (ticks [ typingHost 1200 typedPos typedRect ] midMove) == 0.
Proof.
  assert (N : 0 <= remainingMoveTime midMove) by (vm_compute; discriminate).
  split.
  - rewrite (resting_move_runs_on_clock
               [ typingHost 1020 typedPos typedRect;
                 typingHost 1050 typedPos typedRect;
                 typingHost 1075 typedPos typedRect ] midMove N).
    + vm_compute. reflexivity.
    + split; [ exists typedPos, typedRect; caret_found;
               eexists; split; [ reflexivity | split; vm_compute; reflexivity ] | ].
      split; [ exists typedPos, typedRect; caret_found;
               eexists; split; [ reflexivity | split; vm_compute; reflexivity ] | ].
      split; [ exists typedPos, typedRect; caret_found;
               eexists; split; [ reflexivity | split; vm_compute; reflexivity ] | ].
      exact I.
  - rewrite (resting_move_runs_on_clock
               [ typingHost 1200 typedPos typedRect ] midMove N).
    + vm_compute. reflexivity.
    + split; [ exists typedPos, typedRect; caret_found;
               eexists; split; [ reflexivity | split; vm_compute; reflexivity ] | ].
      exact I.
Defined.

(** ** The blink wave repeats *)

Lemma lt_compat (a b c d : Q) : a == c -> b == d -> JS.lt a b = JS.lt c d.
Proof. intros E F. unfold JS.lt. rewrite E, F. reflexivity. Qed.

Lemma floorMod_compat (a b period : Q) :
  a == b -> floorMod a period == floorMod b period.
Proof.
  intros E. unfold floorMod.
  assert (F : Qfloor (a / period) = Qfloor (b / period))
    by (apply Qfloor_comp; rewrite E; reflexivity).
  rewrite F, E. reflexivity.
Qed.

Lemma floorMod_shift (e period : Q) (k : Z) :
  0 < period ->
  floorMod (e + inject_Z k * period) period == floorMod e period.
Proof.
  intros Hp. unfold floorMod.
  pose proof (Qfloor_le (e / period)) as Fl.
  pose proof (Qlt_floor (e / period)) as Fu.
  rewrite inject_Z_plus in Fu. change (inject_Z 1) with 1 in Fu.
  assert (D : (e + inject_Z k * period) / period == e / period + inject_Z k)
    by (field; lra).
  assert (F : Qfloor ((e + inject_Z k * period) / period)
              = (Qfloor (e / period) + k)%Z).
  { apply Qfloor_unique; rewrite D, inject_Z_plus; lra. }
  rewrite F, inject_Z_plus. ring.
Qed.

(** X7.  Once the delay is over, the blink of a resting caret repeats with
    the period [blinkSpeed * 1000]: the opacity at [now] and the opacity any
    whole number of periods later are the same. *)
Theorem blink_periodic (now : Q) (k : Z) (p : Plugin) :
  let period := blinkSpeed (settings p) * 1000 in
  0 < period ->
  blinkStartTime p + blinkDelay (settings p) * 1000 <= now ->
  (0 <= k)%Z ->
  fst (blinkCursor (now + inject_Z k * period) false p)
    = fst (blinkCursor now false p).
Proof.
  intros period Hp He Hk.
  assert (K : 0 <= inject_Z k) by (rewrite Zle_Qle in Hk; exact Hk).
  assert (KP : 0 <= inject_Z k * period) by (apply Qmult_le_0_compat; lra).
  rewrite (blinkCursor_wave now p); [ | lra | exact Hp ].
  rewrite (blinkCursor_wave (now + inject_Z k * period) p);
    [ | fold period; lra | exact Hp ].
  fold period.
  rewrite (lt_compat _ (period / 2)
             (floorMod (now - blinkStartTime p - blinkDelay (settings p) * 1000) period)
             (period / 2)); [ reflexivity | | reflexivity ].
  apply Qeq_trans with
    (floorMod (now - blinkStartTime p - blinkDelay (settings p) * 1000
               + inject_Z k * period) period).
  - apply floorMod_compat. ring.
  - apply floorMod_shift. exact Hp.
Qed.

(** A blink period of one second with a delay of half a second: the opacity
    at 700 ms and at 3700 ms, and at 1200 ms and at 2200 ms. *)
Lemma blink_periodic_witness :
  fst (blinkCursor (700 + inject_Z 3 * (1 * 1000)) false lingering)
    = fst (blinkCursor 700 false lingering)
  /\ fst (blinkCursor (1200 + inject_Z 1 * (1 * 1000)) false lingering)
    = fst (blinkCursor 1200 false lingering)
  /\ fst (blinkCursor 700 false lingering) = 1
  /\ fst (blinkCursor 1200 false lingering) = 0.
Proof.
  split; [ apply (blink_periodic 700 3 lingering);
           [ vm_compute; reflexivity | vm_compute; discriminate | lia ] | ].
  split; [ apply (blink_periodic 1200 1 lingering);
           [ vm_compute; reflexivity | vm_compute; discriminate | lia ] | ].
  split; reflexivity.
Defined.

(** ** Settings saved and loaded again *)

(** X8.  Saving the settings and loading what was saved gives the settings
    back, key by key: a colour that was reset to [null] is still [null]
    after the reload and is not replaced by the default [#ffffff]; the
    plugin started on the saved data holds the same settings. *)
Theorem saveSettings_roundtrip (constructed : Q) (h : Host) (p : Plugin) :
  loadSettings (Some (saveSettings p)) = settings p
  /\ settings (onload constructed (Some (saveSettings p)) h) = settings p
  /\ cursorColor (loadSettings (Some (saveSettings (set_cursorColor None p)))) = None.
Proof.
  assert (R : forall q, loadSettings (Some (saveSettings q)) = settings q).
  { intros q. destruct q as [s e c pc ic ft bs r pe]. destruct s. reflexivity. }
  split; [ apply R | ].
  split; [ | rewrite R; reflexivity ].
  unfold onload. rewrite updateCursor_settings. simpl. apply R.
Qed.

(** ** The overlay colour *)

Lemma callbacks_cursor_color (h : Host) (l : list FrameCallback) (p : Plugin) :
  cursor_color (cursorElement (fold_left (fun q cb => runCallback h cb q) l p))
    = cursor_color (cursorElement p)
  /\ settings (fold_left (fun q cb => runCallback h cb q) l p) = settings p.
Proof.
  revert p. induction l as [| cb l IH]; intros p; [ split; reflexivity | ].
  simpl. destruct (IH (runCallback h cb p)) as [C S]. rewrite C, S.
  destruct cb; simpl.
  - split; reflexivity.
  - rewrite updateCursor_cursor_color, updateCursor_settings. split; reflexivity.
Qed.

Lemma animate_cursor_color (hs : list Host) (p : Plugin) :
  cursor_color (cursorElement (animate hs p)) = cursor_color (cursorElement p)
  /\ settings (animate hs p) = settings p.
Proof.
  revert p. induction hs as [| h rest IH]; intros p; [ split; reflexivity | ].
  unfold animate in *. simpl.
  destruct (IH (animationFrame h p)) as [C S]. rewrite C, S.
  unfold animationFrame.
  destruct (callbacks_cursor_color h (pending p) (take_pending p)) as [C1 S1].
  rewrite C1, S1. split; reflexivity.
Qed.

(** X9.  The colour of the settings tab.  A colour picked in the tab is in
    the settings and on the overlay, and stays on the overlay through any
    number of animation frames, whatever theme the later frames see.  The
    reset button leaves [cursorColor] at [null] and the overlay at the
    colour of the theme of that moment, whether or not the picker's
    [setValue] calls the picker's handler; no later frame repaints it. *)
Theorem colour_setting (h : Host) (value : string) (notifies : bool)
    (hs : list Host) (p : Plugin) :
  cursorColor (settings (animate hs (colourPicked h value p))) = Some value
  /\ cursor_color (cursorElement (animate hs (colourPicked h value p))) = Some value
  /\ cursorColor (settings (animate hs (colourReset h notifies p))) = None
  /\ cursor_color (cursorElement (animate hs (colourReset h notifies p)))
     = Some (themeColour h)
  /\ blinkSpeed (settings (colourReset h notifies p)) = blinkSpeed (settings p)
  /\ blinkDelay (settings (colourReset h notifies p)) = blinkDelay (settings p)
  /\ characterMovementTime (settings (colourReset h notifies p))
     = characterMovementTime (settings p)
  /\ cursorWidth (settings (colourReset h notifies p)) = cursorWidth (settings p).
Proof.
  destruct (animate_cursor_color hs (colourPicked h value p)) as [C1 S1].
  destruct (animate_cursor_color hs (colourReset h notifies p)) as [C2 S2].
  rewrite C1, S1, C2, S2.
  split; [ reflexivity | ].
  split; [ reflexivity | ].
  split; [ destruct notifies; reflexivity | ].
  split.
  { unfold themeColour, colourReset, changeCursorColour. simpl.
    destruct (classList_contains (bodyClassList h) "theme-dark"); reflexivity. }
  destruct notifies; repeat split.
Qed.

(** ** Frames that do not find the caret *)

(** X10.  What the overlay shows after a run of [updateCursor]: it is shown
    when the caret is found; it is hidden when a selection with a focus node
    exists and the editor is not focused; without selection, or without
    focus node, it is left as it was, shown if it was shown.  On both early
    returns the drawn position, size, opacity and colour are untouched. *)
Theorem overlay_display (h : Host) (p : Plugin) :
  display (cursorElement (updateCursor h p))
    = match caretSample h, caretRect h with
      | Some _, _ => DisplayBlock
      | None, Some _ => DisplayNone
      | None, None => display (cursorElement p)
      end
  /\ (caretSample h = None ->
      cursorElement (updateCursor h p)
        = match caretRect h with
          | Some _ => set_display DisplayNone (cursorElement p)
          | None => cursorElement p
          end).
Proof.
  destruct (caretSample h) as [[pos rect]|] eqn:S.
  - split; [ | discriminate ].
    destruct (updateCursor_focused h p pos rect S)
      as [_ [_ [_ [_ [_ [_ [_ [_ E]]]]]]]].
    rewrite E. reflexivity.
  - rewrite (updateCursor_early h p S).
    destruct (caretRect h); split; reflexivity.
Qed.

(** The overlay shown at rest: a frame without focus hides it, a frame
    without selection leaves it shown, and neither redraws it. *)
Lemma overlay_display_witness :
  display (cursorElement atRest) = DisplayBlock
  /\ display (cursorElement (updateCursor (blurredHost 1016 typedPos typedRect) atRest))
     = DisplayNone
  /\ display (cursorElement (updateCursor (idleHost 1016) atRest)) = DisplayBlock
  /\ cursorElement (updateCursor (idleHost 1016) atRest) = cursorElement atRest
  /\ display (cursorElement
       (updateCursor (typedFrame 1)
          (updateCursor (blurredHost 1016 typedPos typedRect) atRest)))
     = DisplayBlock.
Proof.
  split; [ reflexivity | ].
  split; [ apply (overlay_display (blurredHost 1016 typedPos typedRect) atRest) | ].
  split; [ apply (overlay_display (idleHost 1016) atRest) | ].
  split; [ apply (overlay_display (idleHost 1016) atRest); reflexivity | ].
  apply (overlay_display (typedFrame 1)
           (updateCursor (blurredHost 1016 typedPos typedRect) atRest)).
Defined.

Lemma animationFrame_one_update (h : Host) (p : Plugin) :
  pending p = [UpdateCursor] ->
  animationFrame h p = updateCursor h (take_pending p).
Proof. intros E. unfold animationFrame. rewrite E. reflexivity. Qed.

(** Animation frames that do not find the caret, with one run pending and
    no reset: one run is pending after them, and the fields the engines
    read are as they were. *)
Lemma hidden_frames (hs : list Host) (p : Plugin) :
  Forall (fun g => caretSample g = None) hs ->
  pending p = [UpdateCursor] ->
  pending (animate hs p) = [UpdateCursor]
  /\ sameEngine (animate hs p) p
  /\ blinkStartTime (animate hs p) = blinkStartTime p
  /\ prevIconCoords (animate hs p) = prevIconCoords p.
Proof.
  intros H. revert p. induction H as [| g rest G _ IH]; intros p E.
  - repeat split. exact E.
  - change (animate (g :: rest) p) with (animate rest (animationFrame g p)).
    assert (F : animationFrame g p
                = scheduleNextUpdate
                    (match caretRect g with
                     | Some _ => removeIcon (set_prevFrameTime (nowFrame g) (take_pending p))
                     | None => set_prevFrameTime (nowFrame g) (take_pending p)
                     end)).
    { rewrite (animationFrame_one_update g p E). apply updateCursor_early. exact G. }
    assert (E' : pending (animationFrame g p) = [UpdateCursor]).
    { rewrite F. destruct (caretRect g); reflexivity. }
    destruct (IH (animationFrame g p) E') as [Pe [[S [C [P R]]] [B I]]].
    unfold sameEngine. rewrite Pe, S, C, P, R, B, I, F.
    destruct (caretRect g); repeat split.
Qed.

Lemma blinkCursor_reads (now : Q) (c : bool) (a b : Plugin) :
  settings a = settings b -> blinkStartTime a = blinkStartTime b ->
  fst (blinkCursor now c a) = fst (blinkCursor now c b).
Proof.
  intros S B. unfold blinkCursor, resetCursor. rewrite S, B.
  destruct c; [ reflexivity | ].
  destruct (JS.lt _ 0); [ reflexivity | ].
  destruct (JS.lt_nan _ _); reflexivity.
Qed.

(** X11.  Losing and regaining the focus does not restart the blink.  With
    one run of [updateCursor] pending and no blink reset, after any number
    of animation frames that do not find the caret, a frame that finds it at
    the pixel coordinates recorded before registers no blink reset, keeps
    [blinkStartTime], and draws the opacity of the wave that was running;
    the move time and the icon recorded before are still there. *)
Theorem refocus_keeps_blink (hs : list Host) (h : Host) (p : Plugin)
    (pos : Position) (rect : DOMRect) :
  pending p = [UpdateCursor] ->
  Forall (fun g => caretSample g = None) hs ->
  caretSample h = Some (pos, rect) ->
  left (prevCursorCoords p) == rect_left rect ->
  top (prevCursorCoords p) == rect_top rect ->
  let q := animate hs p in
  cursor_opacity (cursorElement (animationFrame h q))
    = Some (fst (blinkCursor (nowBlink h) false p))
  /\ pending (animationFrame h q) = [UpdateCursor]
  /\ blinkStartTime (animationFrame h q) = blinkStartTime p
  /\ remainingMoveTime q = remainingMoveTime p
  /\ prevIconCoords q = prevIconCoords p.
Proof.
  intros E H S L T q.
  destruct (hidden_frames hs p H E) as [Pe [[Se [C [P R]]] [B I]]].
  fold q in Pe, Se, C, P, R, B, I.
  rewrite (animationFrame_one_update h q Pe).
  destruct (updateCursor_focused h (take_pending q) pos rect S)
    as [_ [_ [_ [_ [_ [Bs [_ [Pn El]]]]]]]].
  assert (M : coordinatesChanged (take_pending q) (rectCoords rect) = false).
  { unfold coordinatesChanged. cbn [take_pending prevCursorCoords]. rewrite C. simpl.
    apply strict_ne_false in L. apply strict_ne_false in T.
    rewrite L, T. reflexivity. }
  rewrite M in Pn, El. rewrite El, Pn, Bs.
  split; [ cbn [render cursor_opacity];
           rewrite (blinkCursor_reads (nowBlink h) false (take_pending q) p Se B);
           reflexivity | ].
  split; [ reflexivity | ].
  split; [ exact B | ].
  split; assumption.
Qed.

(** The caret at rest at (100, 50), two frames without focus and one
    without selection, then the focus back at 5900 ms: the blink that
    started at 0 ms shows its second half. *)
Lemma refocus_keeps_blink_witness :
  let away := [ blurredHost 1016 {| line := 3; ch := 4 |}
                  {| rect_left := 100; rect_top := 50; rect_height := 18 |};
                idleHost 1032;
                blurredHost 5000 {| line := 3; ch := 4 |}
                  {| rect_left := 100; rect_top := 50; rect_height := 18 |} ] in
  let back := typingHost 5900 {| line := 3; ch := 4 |}
                {| rect_left := 100; rect_top := 50; rect_height := 18 |} in
  cursor_opacity (cursorElement (animationFrame back (animate away atRest)))
    = Some (fst (blinkCursor 5900 false atRest))
  /\ fst (blinkCursor 5900 false atRest) = 0
  /\ blinkStartTime (animationFrame back (animate away atRest)) = 0
  /\ pending (animationFrame back (animate away atRest)) = [UpdateCursor].
Proof.
  intros away back.
  destruct (refocus_keeps_blink away back atRest {| line := 3; ch := 4 |}
              {| rect_left := 100; rect_top := 50; rect_height := 18 |})
    as [O [Pe [B _]]].
  - reflexivity.
  - repeat constructor.
  - reflexivity.
  - reflexivity.
  - reflexivity.
  - split; [ exact O | ]. split; [ reflexivity | ]. split; [ exact B | exact Pe ].
Defined.

(** ** A move time of 0 *)

(** X12.  With [characterMovementTime] at 0 (the setting's "instant speed")
    or below and no move in flight, no frame interpolates: every run of
    [updateCursor] that finds the caret returns the fraction 0 from the
    engine, records the icon exactly on the caret and leaves no move time,
    whatever the transition and the frame time; so it stays for every
    following frame. *)
Theorem instant_speed (h : Host) (p : Plugin) :
  characterMovementTime (settings p) <= 0 ->
  remainingMoveTime p <= 0 ->
  characterMovementTime (settings (updateCursor h p)) <= 0
  /\ remainingMoveTime (updateCursor h p) <= 0
  /\ (forall pos rect,
        caretSample h = Some (pos, rect) ->
        fst (handleSmoothTyping (Some pos) (rectCoords rect)
               (nowFrame h - prevFrameTime p) p) = 0
        /\ prevIconCoords (updateCursor h p) = Some (rectCoords rect)
        /\ remainingMoveTime (updateCursor h p) = 0).
Proof.
  intros D R.
  assert (F : forall pos rect,
            caretSample h = Some (pos, rect) ->
            fst (handleSmoothTyping (Some pos) (rectCoords rect)
                   (nowFrame h - prevFrameTime p) p) = 0
            /\ prevIconCoords (updateCursor h p) = Some (rectCoords rect)
            /\ remainingMoveTime (updateCursor h p) = 0).
  { intros pos rect S.
    destruct (updateCursor_focused h p pos rect S)
      as [_ [_ [_ [I [_ [_ [Re _]]]]]]].
    rewrite I, Re.
    assert (O : handleSmoothTyping (Some pos) (rectCoords rect)
                  (nowFrame h - prevFrameTime p) p
                = (0, snd (handleSmoothTyping (Some pos) (rectCoords rect)
                             (nowFrame h - prevFrameTime p) p))
                /\ remainingMoveTime
                     (snd (handleSmoothTyping (Some pos) (rectCoords rect)
                             (nowFrame h - prevFrameTime p) p)) = 0).
    { destruct (prevCursorPos p) as [prev|] eqn:P.
      - rewrite (handleSmoothTyping_present p prev pos _ _ P).
        rewrite travel_idle; [ split; reflexivity | ].
        destruct (classify_remaining prev pos (rectCoords rect) p)
          as [_ [E | [E | E]]]; rewrite E; lra.
      - rewrite handleSmoothTyping_absent; [ split; reflexivity | right; exact P ]. }
    destruct O as [O1 O2]. rewrite O1 at 1 2. cbn [fst].
    rewrite (iconCoords_snap 0); [ | reflexivity ].
    repeat split. exact O2. }
  rewrite updateCursor_settings. split; [ exact D | ].
  split; [ | exact F ].
  destruct (caretSample h) as [[pos rect]|] eqn:S.
  - destruct (F pos rect eq_refl) as [_ [_ Z]]. rewrite Z. lra.
  - rewrite (updateCursor_early h p S). destruct (caretRect h); exact R.
Qed.

Lemma instant_speed_witness :
  let instant := set_settings (mkSettings (12 # 10) 0 0 1 None) atRest in
  fst (handleSmoothTyping (Some typedPos) (rectCoords typedRect)
         (nowFrame (typedFrame 1) - prevFrameTime instant) instant) = 0
  /\ prevIconCoords (updateCursor (typedFrame 1) instant) = Some (rectCoords typedRect)
  /\ remainingMoveTime (updateCursor (typedFrame 1) instant) = 0.
Proof.
  intros instant.
  destruct (instant_speed (typedFrame 1) instant) as [_ [_ F]].
  - vm_compute. discriminate.
  - vm_compute. discriminate.
  - apply (F typedPos typedRect). reflexivity.
Defined.
